(** * scd-access: the access library of the spatial content discovery service

    A shallow embedding of [src/lib/index.ts]: the zod schemas of the Spatial
    Content Record (SCR), the canned records of the offline mode, and the
    operations [getContentsAtLocation], [getContentAtLocation],
    [getContentWithId], [searchContentsForTenant], [postContent],
    [postScrFile], [putContent], [deleteWithId] with their helper [request].

    Conventions of the embedding.
    - A JavaScript string is a [string]; one character stands for one UTF-16
      code unit, so [String.length] is the [.length] of the source.
    - A parameter that the source compares with [undefined] is an
      [option string] ([None] is [undefined]); the other parameters have the
      type the source declares.
    - The module variable [local] and the requests handed to [fetch] form
      the [World] that every operation threads.
    - [fetch], [JSON.parse], [JSON.stringify] and the URL test of
      [z.string().url()] are collaborators outside the repository: they are
      the variables of Section [Access]. *)

From Stdlib Require Import String Ascii List Bool Arith ZArith Lia DecimalString.
Import ListNotations.
Local Open Scope list_scope.
Local Open Scope string_scope.

Set Warnings "-register-all".

(** ** JavaScript values *)

(** A number is written as the source writes it, a decimal literal
    [mantissa * 10 ^ exponent]; [NaN] is the one number [z.number()]
    refuses. No operation of the library computes with numbers. *)
Inductive Number : Type :=
| NaN
| Dec (mantissa exponent : Z).

(** The values a caller can hand over as a record, and the values
    [JSON.parse] produces. An object lists its own properties in insertion
    order, each key once. *)
Inductive JSValue : Type :=
| JUndefined
| JNull
| JBool (b : bool)
| JNumber (n : Number)
| JString (s : string)
| JArray (items : list JSValue)
| JObject (props : list (string * JSValue)).

(** [obj[key]]: the value of the property, [undefined] when there is none. *)
Fixpoint get (key : string) (props : list (string * JSValue)) : JSValue :=
  match props with
  | [] => JUndefined
  | (k, v) :: rest => if String.eqb k key then v else get key rest
  end.

(** [key in obj]. *)
Fixpoint has (key : string) (props : list (string * JSValue)) : bool :=
  match props with
  | [] => false
  | (k, _) :: rest => String.eqb k key || has key rest
  end.

(** Interpolation [`${x}`] of a parameter that may be [undefined]. *)
Definition show (x : option string) : string :=
  match x with
  | Some s => s
  | None => "undefined"
  end.

(** Truthiness of a [string | undefined]: [if (token)]. *)
Definition truthy (x : option string) : bool :=
  match x with
  | Some s => negb (String.eqb s "")
  | None => false
  end.

(** ** The zod schemas *)

Module Zod.

(** The schema constructors [index.ts] uses: [z.string()],
    [z.string().url()], [z.number()], [z.array(s)], [z.object({...})]
    and [s.optional()]. *)
Inductive ZodType : Type :=
| ZString
| ZStringUrl
| ZNumber
| ZArray (item : ZodType)
| ZObject (shape : list (string * ZodType))
| ZOptional (inner : ZodType).

(** zod's classification of an input ([getParsedType]). *)
Inductive ParsedType : Type :=
| PUndefined | PNull | PBoolean | PNumber | PNan | PString | PArray | PObject.

Definition getParsedType (v : JSValue) : ParsedType :=
  match v with
  | JUndefined => PUndefined
  | JNull => PNull
  | JBool _ => PBoolean
  | JNumber NaN => PNan
  | JNumber (Dec _ _) => PNumber
  | JString _ => PString
  | JArray _ => PArray
  | JObject _ => PObject
  end.

Inductive PathSegment : Type :=
| Key (k : string)
| Index (i : nat).

(** An issue: where it is, and either a type mismatch or a string that
    is not a URL. *)
Inductive IssueCode : Type :=
| invalid_type (expected received : ParsedType)
| invalid_string_url.

Record ZodIssue : Type := mkIssue {
  code : IssueCode;
  path : list PathSegment
}.

Inductive SafeParse : Type :=
| Success (data : JSValue)
| Failure (issues : list ZodIssue).

Definition issues_of (r : SafeParse) : list ZodIssue :=
  match r with
  | Success _ => []
  | Failure issues => issues
  end.

Definition mismatch (expected : ParsedType) (v : JSValue)
    (at_ : list PathSegment) : SafeParse :=
  Failure [mkIssue (invalid_type expected (getParsedType v)) at_].

(** An object or array is parsed member by member; every issue is kept,
    and the output is built only when no member failed. *)
Definition add_prop (key : string) (present : bool) (r : SafeParse)
    (rest : list ZodIssue + list (string * JSValue))
    : list ZodIssue + list (string * JSValue) :=
  match r, rest with
  | Success v, inr props =>
      match v with
      | JUndefined => if present then inr ((key, v) :: props) else inr props
      | _ => inr ((key, v) :: props)
      end
  | _, inl issues => inl (issues_of r ++ issues)%list
  | Failure issues, inr _ => inl issues
  end.

Definition add_item (r : SafeParse) (rest : list ZodIssue + list JSValue)
    : list ZodIssue + list JSValue :=
  match r, rest with
  | Success v, inr items => inr (v :: items)
  | _, inl issues => inl (issues_of r ++ issues)%list
  | Failure issues, inr _ => inl issues
  end.

Section Parse.

(** Whether [new URL(s)] accepts the string. *)
Variable isUrl : string -> bool.

(** [schema.safeParse(v)], at position [at_] of the whole input.
    Properties of the input that the shape does not name are dropped
    (zod's default for [z.object]). *)
Fixpoint safeParse (t : ZodType) (at_ : list PathSegment) (v : JSValue)
    {struct t} : SafeParse :=
  match t with
  | ZString =>
      match v with
      | JString _ => Success v
      | _ => mismatch PString v at_
      end
  | ZStringUrl =>
      match v with
      | JString s =>
          if isUrl s then Success v
          else Failure [mkIssue invalid_string_url at_]
      | _ => mismatch PString v at_
      end
  | ZNumber =>
      match v with
      | JNumber (Dec _ _) => Success v
      | _ => mismatch PNumber v at_
      end
  | ZArray item =>
      match v with
      | JArray items =>
          let fix each (i : nat) (xs : list JSValue) :=
            match xs with
            | [] => inr []
            | x :: xs' =>
                add_item (safeParse item (at_ ++ [Index i])%list x)
                         (each (S i) xs')
            end in
          match each 0 items with
          | inr out => Success (JArray out)
          | inl issues => Failure issues
          end
      | _ => mismatch PArray v at_
      end
  | ZObject shape =>
      match v with
      | JObject props =>
          let fix each (sh : list (string * ZodType)) :=
            match sh with
            | [] => inr []
            | (key, t') :: sh' =>
                add_prop key (has key props)
                         (safeParse t' (at_ ++ [Key key])%list (get key props))
                         (each sh')
            end in
          match each shape with
          | inr out => Success (JObject out)
          | inl issues => Failure issues
          end
      | _ => mismatch PObject v at_
      end
  | ZOptional inner =>
      match v with
      | JUndefined => Success JUndefined
      | _ => safeParse inner at_ v
      end
  end.

End Parse.

(** [a.extend({...})], the spread [{...shape, ...extension}]: a property
    of the extension takes the place of the one of the same name, the new
    ones come after the existing ones. *)
Definition lookup_shape (key : string) (shape : list (string * ZodType))
    : option ZodType :=
  option_map snd (find (fun p => String.eqb (fst p) key) shape).

Definition extend (a : ZodType) (extension : list (string * ZodType)) : ZodType :=
  match a with
  | ZObject shape =>
      ZObject
        (map (fun p => match lookup_shape (fst p) extension with
                       | Some t => (fst p, t)
                       | None => p
                       end) shape
         ++ filter (fun q => match lookup_shape (fst q) shape with
                             | Some _ => false
                             | None => true
                             end) extension)%list
  | _ => a
  end.

End Zod.

Import Zod.

(** The schemas of [index.ts], in the order of the source. *)

Definition positionSchema : ZodType :=
  ZObject [("lon", ZNumber); ("lat", ZNumber); ("h", ZNumber)].

Definition quaternionSchema : ZodType :=
  ZObject [("x", ZNumber); ("y", ZNumber); ("z", ZNumber); ("w", ZNumber)].

Definition geoPoseSchema : ZodType :=
  ZObject [("position", positionSchema); ("quaternion", quaternionSchema)].

Definition refSchema : ZodType :=
  ZObject [("contentType", ZString); ("url", ZStringUrl)].

Definition defSchema : ZodType :=
  ZObject [("type", ZString); ("value", ZString)].

Definition contentSchema : ZodType :=
  ZObject
    [ ("id", ZString);
      ("type", ZString);
      ("title", ZString);
      ("description", ZOptional ZString);
      ("keywords", ZOptional (ZArray ZString));
      ("placekey", ZOptional ZString);
      ("refs", ZOptional (ZArray refSchema));
      ("geopose", geoPoseSchema);
      ("size", ZOptional ZNumber);
      ("bbox", ZOptional ZString);
      ("definitions", ZOptional (ZArray defSchema)) ].

Definition scrNoIdSchema : ZodType :=
  ZObject
    [ ("type", ZString);
      ("content", contentSchema);
      ("tenant", ZOptional ZString);
      ("timestamp", ZOptional ZNumber) ].

Definition scrSchema : ZodType :=
  extend scrNoIdSchema [("id", ZString)].

(** ** The canned records of the offline mode *)

Definition num (mantissa exponent : Z) : JSValue := JNumber (Dec mantissa exponent).

(** [localResults], the records returned for a list request. *)
Definition localResults : JSValue :=
  JArray
    [ JObject
        [ ("id", JString "a3683f12b334dea6");
          ("type", JString "scr");
          ("content",
            JObject
              [ ("id", JString "111");
                ("type", JString "3d");
                ("title", JString "cat model");
                ("keywords", JArray [JString "cat"]);
                ("url", JString "https://www.example.com/cat.glb");
                ("geopose",
                  JObject
                    [ ("position",
                        JObject [ ("lon", num (-977288818359375) (-13));
                                  ("lat", num 30286160447473897 (-15));
                                  ("h", num 7834 (-2)) ]);
                      ("quaternion",
                        JObject [ ("x", num 5 (-1)); ("y", num 5 (-1));
                                  ("z", num 5 (-1)); ("w", num 5 (-1)) ]) ]);
                ("size", num 100 0) ]);
          ("tenant", JString "oscptest");
          ("timestamp", num 202009 0) ];
      JObject
        [ ("id", JString "d44a6818c119b51e");
          ("type", JString "scr");
          ("content",
            JObject
              [ ("id", JString "222");
                ("type", JString "3d");
                ("title", JString "dog model");
                ("url", JString "https://www.example.com/dog.glb");
                ("geopose",
                  JObject
                    [ ("position",
                        JObject [ ("lon", num (-977358341217041) (-13));
                                  ("lat", num 3028567869039136 (-14));
                                  ("h", num 7834 (-2)) ]);
                      ("quaternion",
                        JObject [ ("x", num 5 (-1)); ("y", num 5 (-1));
                                  ("z", num 5 (-1)); ("w", num 5 (-1)) ]) ]);
                ("size", num 100 0) ]);
          ("tenant", JString "oscptest");
          ("timestamp", num 20200924 0) ] ].

(** [localResult], the record returned for a request by id. *)
Definition localResult : JSValue :=
  JObject
    [ ("id", JString "a3683f12b334dea6");
      ("type", JString "scr");
      ("content",
        JObject
          [ ("id", JString "111");
            ("type", JString "3d");
            ("title", JString "cat model");
            ("keywords", JArray [JString "cat"]);
            ("url", JString "https://www.example.com/cat.glb");
            ("geopose",
              JObject
                [ ("position",
                    JObject [ ("lon", num (-977288818359375) (-13));
                              ("lat", num 30286160447473897 (-15));
                              ("h", num 7834 (-2)) ]);
                  ("quaternion",
                    JObject [ ("x", num 5 (-1)); ("y", num 5 (-1));
                              ("z", num 5 (-1)); ("w", num 5 (-1)) ]) ]);
            ("size", num 100 0) ]);
      ("tenant", JString "oscptest");
      ("timestamp", num 20200924 0) ].

(** The top-level [id] of each record of a list. *)
Definition ids (records : JSValue) : list JSValue :=
  match records with
  | JArray items =>
      map (fun r => match r with JObject props => get "id" props | _ => JUndefined end)
          items
  | _ => []
  end.

(** ** Requests, responses and failures *)

Definition GET_METHOD : string := "get".
Definition POST_METHOD : string := "post".
Definition PUT_METHOD : string := "put".
Definition DELETE_METHOD : string := "delete".

Definition scrsPath : string := "scrs".

(** What [fetch(url, options)] receives. [Headers.append] keeps the order
    of insertion; [body] is [None] when [options] has no [body]. *)
Record Request : Type := mkRequest {
  req_url : string;
  req_method : string;
  req_headers : list (string * string);
  req_body : option string
}.

(** What the library reads of a [Response]: [ok], [statusText] and the
    body text that [text()] and [json()] consume. *)
Record Response : Type := mkResponse {
  ok : bool;
  statusText : string;
  text : string
}.

(** A [File]: its [name], and what the [FileReader] ends with, the text
    ([onload]) or the description of [reader.error] ([onerror]). *)
Record File : Type := mkFile {
  name : string;
  readAsText : string + string
}.

(** The values the operations throw or reject with. *)
Inductive Exn : Type :=
| Error (message : string)          (* [new Error(message)] *)
| SyntaxError (message : string)    (* thrown by [JSON.parse] and [json()] *)
| ZodError (issues : list ZodIssue) (* thrown by [schema.parse] *)
| Rejected (reason : string)        (* [reject(reason)] with a plain string *)
| FetchError (message : string).    (* [fetch] itself failed *)

(** How a promise settles. *)
Inductive Completion (A : Type) : Type :=
| Fulfilled (value : A)
| Failed (e : Exn).
Arguments Fulfilled {A} value.
Arguments Failed {A} e.

(** The state the operations share: the flag [local] and the requests
    handed to [fetch] so far, oldest first. *)
Record World : Type := mkWorld {
  local : bool;
  network : list Request
}.

(** An asynchronous computation: from a world to its completion and the
    world it leaves. *)
Definition Async (A : Type) : Type := World -> Completion A * World.

Definition ret {A} (a : A) : Async A := fun w => (Fulfilled a, w).

Definition throw {A} (e : Exn) : Async A := fun w => (Failed e, w).

Definition bind {A B} (m : Async A) (k : A -> Async B) : Async B :=
  fun w =>
    match m w with
    | (Fulfilled a, w') => k a w'
    | (Failed e, w') => (Failed e, w')
    end.

Definition read_local : Async bool := fun w => (Fulfilled (local w), w).

Declare Scope async_scope.
Delimit Scope async_scope with async.
Notation "x <- m ;; k" := (bind m (fun x => k))
  (at level 61, m at next level, right associativity) : async_scope.
Notation "m ;; k" := (bind m (fun _ => k))
  (at level 61, right associativity) : async_scope.
Local Open Scope async_scope.

(** [schema.parse(v)]: the parsed data, or a [ZodError] with the issues. *)
Definition zod_parse (isUrl : string -> bool) (schema : ZodType) (v : JSValue)
    : Async JSValue :=
  match safeParse isUrl schema [] v with
  | Success data => ret data
  | Failure issues => throw (ZodError issues)
  end.

Section Access.

(** The collaborators. [fetch] answers a request with a response or
    fails; [JSON_parse] gives the value of a text or the message of its
    [SyntaxError]; [JSON_stringify] serialises a record. *)
Variable fetch : Request -> Completion Response.
Variable JSON_parse : string -> string + JSValue.
Variable JSON_stringify : JSValue -> string.
Variable isUrl : string -> bool.

Definition do_fetch (r : Request) : Async Response :=
  fun w => (fetch r, mkWorld (local w) (network w ++ [r])%list).

Definition parse_json (s : string) : Async JSValue :=
  match JSON_parse s with
  | inr v => ret v
  | inl message => throw (SyntaxError message)
  end.

(** [request(url, method = GET_METHOD, body = '', token = undefined)]. *)
Definition request (url method body : string) (token : option string)
    : Async Response :=
  let headers :=
    [ ("accept", "application/vnd.oscp+json; version=1.0;");
      ("content-type", "application/json") ] in
  let headers :=
    if truthy token
    then app headers [("authorization", "Bearer " ++ show token)]
    else headers in
  let options :=
    mkRequest url method headers
      (if String.eqb method POST_METHOD || String.eqb method PUT_METHOD
       then Some body else None) in
  response <- do_fetch options ;;
  if negb (ok response)
  then throw (Error (text response ++ ", " ++ statusText response))
  else ret response.

(** [getFileContent(file)]. With no file the promise is rejected at once,
    and what [readAsText] does afterwards no longer matters. *)
Definition getFileContent (file : option File) : Async string :=
  match file with
  | None => throw (Rejected "Undefined file provided")
  | Some f =>
      match readAsText f with
      | inl result => ret result
      | inr error =>
          throw (Rejected ("Unable to get Content of " ++ name f ++ ": " ++ error))
      end
  end.

Definition getContentsAtLocation (url : string) (topic h3Index : option string)
    (keywords : option string) : Async JSValue :=
  let keywords := match keywords with Some k => k | None => "" end in
  l <- read_local ;;
  if l then ret localResults else
  if match topic with None => true | Some t => String.eqb t "" end
     || match h3Index with None => true | Some h => String.eqb h "" end
  then throw (Error ("Check parameters: " ++ show topic ++ " " ++ show h3Index))
  else
    let keywordsQuery :=
      if String.eqb keywords "" then "" else "&keywords=" ++ keywords in
    response <- request (url ++ "/" ++ scrsPath ++ "/" ++ show topic
                           ++ "?h3Index=" ++ show h3Index ++ keywordsQuery)
                        GET_METHOD "" None ;;
    parse_json (text response).

(** Kept for backwards compatibility. *)
Definition getContentAtLocation (url : string) (topic h3Index : option string)
    (keywords : option string) : Async JSValue :=
  let keywords := match keywords with Some k => k | None => "" end in
  getContentsAtLocation url topic h3Index (Some keywords).

Definition getContentWithId (url topic : string) (id : option string)
    : Async JSValue :=
  l <- read_local ;;
  if l then ret localResult else
  if match id with None => true | Some i => (String.length i <? 16)%nat end
  then throw (Error ("Check parameters: " ++ show id))
  else
    response <- request (url ++ "/" ++ scrsPath ++ "/" ++ topic ++ "/" ++ show id)
                        GET_METHOD "" None ;;
    parse_json (text response).

Definition searchContentsForTenant (url topic : string) (token : option string)
    : Async JSValue :=
  response <- request (url ++ "/tenant/" ++ scrsPath ++ "/" ++ topic)
                      GET_METHOD "" token ;;
  parse_json (text response).

Definition postContent (url topic : string) (scr : JSValue)
    (token : option string) : Async string :=
  l <- read_local ;;
  if l then ret "OK" else
  if match token with None => true | Some t => (String.length t =? 0)%nat end
  then throw (Error ("Check parameter: " ++ show token))
  else
    zod_parse isUrl scrNoIdSchema scr ;;
    response <- request (url ++ "/" ++ scrsPath ++ "/" ++ topic)
                        POST_METHOD (JSON_stringify scr) token ;;
    ret (text response).

Definition postScrFile (url topic : string) (file : option File)
    (token : option string) : Async string :=
  result <- getFileContent file ;;
  parsedResult <- parse_json result ;;
  scrNoId <- zod_parse isUrl scrNoIdSchema parsedResult ;;
  postContent url topic scrNoId token.

Definition putContent (url topic : string) (scr : JSValue)
    (id token : option string) : Async string :=
  l <- read_local ;;
  if l then ret "OK" else
  if match id with None => true | Some i => (String.length i =? 0)%nat end
     || match token with None => true | Some t => (String.length t =? 0)%nat end
  then throw (Error ("Check parameters: " ++ show id ++ ", " ++ show token))
  else
    zod_parse isUrl scrSchema scr ;;
    response <- request (url ++ "/" ++ scrsPath ++ "/" ++ topic ++ "/" ++ show id)
                        PUT_METHOD (JSON_stringify scr) token ;;
    ret (text response).

Definition deleteWithId (url topic id : string) (token : option string)
    : Async string :=
  response <- request (url ++ "/" ++ scrsPath ++ "/" ++ topic ++ "/" ++ id)
                      DELETE_METHOD "" token ;;
  ret (text response).

End Access.

(** ** Observing a run *)

(** [headers.get(name)]. *)
Fixpoint header (name : string) (headers : list (string * string))
    : option string :=
  match headers with
  | [] => None
  | (n, v) :: rest => if String.eqb n name then Some v else header name rest
  end.

(** The run of [m] from [w] handed exactly the requests [rs] to [fetch]. *)
Definition issues_requests {A} (m : Async A) (w : World) (rs : list Request) : Prop :=
  snd (m w) = mkWorld (local w) (network w ++ rs)%list.

(** The run of [m] from [w] fails with [e] and leaves the world as it was:
    nothing was handed to [fetch]. *)
Definition fails_early {A} (m : Async A) (w : World) (e : Exn) : Prop :=
  m w = (Failed e, w).

(** The run of [m] from [w] returns [a] and leaves the world as it was. *)
Definition returns_offline {A} (m : Async A) (w : World) (a : A) : Prop :=
  m w = (Fulfilled a, w).

(** The requests the run of [m] from [w] added to the network. *)
Definition issued {A} (m : Async A) (w : World) : list Request :=
  skipn (List.length (network w)) (network (snd (m w))).

(** The parameter is [undefined] or the empty string. *)
Definition missing (x : option string) : Prop := x = None \/ x = Some "".

(** What [request] puts into the request it hands to [fetch]. *)
Record built (url method body : string) (token : option string) (r : Request)
    : Prop := mkBuilt {
  built_url : req_url r = url;
  built_method : req_method r = method;
  built_accept :
    header "accept" (req_headers r) = Some "application/vnd.oscp+json; version=1.0;";
  built_content_type :
    header "content-type" (req_headers r) = Some "application/json";
  built_authorization :
    header "authorization" (req_headers r)
    = if truthy token then Some ("Bearer " ++ show token) else None;
  built_body :
    req_body r
    = if String.eqb method POST_METHOD || String.eqb method PUT_METHOD
      then Some body else None
}.

(** ** The operations as calls *)

(** A call of one of the exported operations, with its arguments. *)
Inductive Call : Type :=
| ListByLocation (url : string) (topic h3Index keywords : option string)
| ListByLocationAlias (url : string) (topic h3Index keywords : option string)
| GetById (url topic : string) (id : option string)
| ListForTenant (url topic : string) (token : option string)
| Create (url topic : string) (scr : JSValue) (token : option string)
| CreateFromFile (url topic : string) (file : option File) (token : option string)
| Replace (url topic : string) (scr : JSValue) (id token : option string)
| DeleteById (url topic id : string) (token : option string).

(** The token a call supplies; the two public reads have none. *)
Definition supplied_token (c : Call) : option string :=
  match c with
  | ListByLocation _ _ _ _ | ListByLocationAlias _ _ _ _ | GetById _ _ _ => None
  | ListForTenant _ _ token | Create _ _ _ token | CreateFromFile _ _ _ token
  | Replace _ _ _ _ token | DeleteById _ _ _ token => token
  end.

(** Create (also from a file) and Replace: the calls that post or put. *)
Definition creates_or_replaces (c : Call) : bool :=
  match c with
  | Create _ _ _ _ | CreateFromFile _ _ _ _ | Replace _ _ _ _ _ => true
  | _ => false
  end.

(** The method each operation passes to [request]. *)
Definition method_of (c : Call) : string :=
  match c with
  | ListByLocation _ _ _ _ | ListByLocationAlias _ _ _ _ | GetById _ _ _
  | ListForTenant _ _ _ => GET_METHOD
  | Create _ _ _ _ | CreateFromFile _ _ _ _ => POST_METHOD
  | Replace _ _ _ _ _ => PUT_METHOD
  | DeleteById _ _ _ _ => DELETE_METHOD
  end.

(** The confirmation text of a mutating operation, as a value. *)
Definition as_value (m : Async string) : Async JSValue :=
  s <- m ;; ret (JString s).

Definition perform (fetch : Request -> Completion Response)
    (JSON_parse : string -> string + JSValue)
    (JSON_stringify : JSValue -> string) (isUrl : string -> bool)
    (c : Call) : Async JSValue :=
  match c with
  | ListByLocation url topic h3Index keywords =>
      getContentsAtLocation fetch JSON_parse url topic h3Index keywords
  | ListByLocationAlias url topic h3Index keywords =>
      getContentAtLocation fetch JSON_parse url topic h3Index keywords
  | GetById url topic id =>
      getContentWithId fetch JSON_parse url topic id
  | ListForTenant url topic token =>
      searchContentsForTenant fetch JSON_parse url topic token
  | Create url topic scr token =>
      as_value (postContent fetch JSON_stringify isUrl url topic scr token)
  | CreateFromFile url topic file token =>
      as_value (postScrFile fetch JSON_parse JSON_stringify isUrl url topic file token)
  | Replace url topic scr id token =>
      as_value (putContent fetch JSON_stringify isUrl url topic scr id token)
  | DeleteById url topic id token =>
      as_value (deleteWithId fetch url topic id token)
  end.

(** ** Reading a candidate record *)

(** [candidate.content.refs], [undefined] when there is no such property. *)
Definition content_refs (candidate : JSValue) : JSValue :=
  match candidate with
  | JObject props =>
      match get "content" props with
      | JObject content => get "refs" content
      | _ => JUndefined
      end
  | _ => JUndefined
  end.

(** [candidate.id]. *)
Definition top_level_id (candidate : JSValue) : JSValue :=
  match candidate with
  | JObject props => get "id" props
  | _ => JUndefined
  end.

(** A Reference: an object with a string [contentType] and a string [url]
    that is a URL. *)
Definition well_formed_reference (isUrl : string -> bool) (v : JSValue) : bool :=
  match v with
  | JObject props =>
      match get "contentType" props, get "url" props with
      | JString _, JString u => isUrl u
      | _, _ => false
      end
  | _ => false
  end.

(** Whether [schema.parse(v)] returns. *)
Definition accepts (isUrl : string -> bool) (schema : ZodType) (v : JSValue) : bool :=
  match safeParse isUrl schema [] v with
  | Success _ => true
  | Failure _ => false
  end.

(** ** The text of a failure *)

Definition type_name (t : ParsedType) : string :=
  match t with
  | PUndefined => "undefined"
  | PNull => "null"
  | PBoolean => "boolean"
  | PNumber => "number"
  | PNan => "nan"
  | PString => "string"
  | PArray => "array"
  | PObject => "object"
  end.

Definition segment_text (s : PathSegment) : string :=
  match s with
  | Key k => k
  | Index i => NilEmpty.string_of_uint (Nat.to_uint i)
  end.

(** Everything an issue says: its code, the types, the path. *)
Definition issue_text (i : ZodIssue) : string :=
  match code i with
  | invalid_type expected received =>
      "invalid_type expected " ++ type_name expected
        ++ " received " ++ type_name received
  | invalid_string_url => "invalid_string url"
  end ++ " at " ++ String.concat "." (map segment_text (path i)).

(** The text a failure carries: the message of an error, the reason of a
    rejection, the issues of a [ZodError]. *)
Definition message_of (e : Exn) : string :=
  match e with
  | Error message | SyntaxError message | FetchError message => message
  | Rejected reason => reason
  | ZodError issues => String.concat "; " (map issue_text issues)
  end.

(** [hay.includes(needle)]. *)
Definition includes (needle hay : string) : bool :=
  match String.index 0 needle hay with
  | Some _ => true
  | None => false
  end.

(** ** Settling on the answer of the server *)

(** Create, Replace and Delete-by-id return the text of the response; the
    reads return the value of its JSON. *)
Definition returns_text (c : Call) : bool :=
  match c with
  | Create _ _ _ _ | CreateFromFile _ _ _ _ | Replace _ _ _ _ _
  | DeleteById _ _ _ _ => true
  | _ => false
  end.

(** What becomes of the answer of [fetch]: [request] lets a failure of
    [fetch] through, turns a response that is not [ok] into an [Error], and
    hands an [ok] response to the rest of the operation, [finish]. *)
Definition settled {A} (finish : Response -> Completion A)
    (answer : Completion Response) : Completion A :=
  match answer with
  | Fulfilled response =>
      if ok response then finish response
      else Failed (Error (text response ++ ", " ++ statusText response))
  | Failed e => Failed e
  end.

(** What a read makes of an [ok] response, [response.json()], and what a
    write makes of it, [response.text()]. *)
Definition read_json (JSON_parse : string -> string + JSValue)
    (response : Response) : Completion JSValue :=
  match JSON_parse (text response) with
  | inr v => Fulfilled v
  | inl message => Failed (SyntaxError message)
  end.

Definition read_text (response : Response) : Completion string :=
  Fulfilled (text response).

(** ** Looking into a record *)

(** [v.a.b.c] for the path [[a; b; c]], [undefined] where a step is
    missing. *)
Fixpoint field (path : list string) (v : JSValue) : JSValue :=
  match path with
  | [] => v
  | key :: rest =>
      match v with
      | JObject props => field rest (get key props)
      | _ => JUndefined
      end
  end.

Definition is_string (v : JSValue) : bool :=
  match v with
  | JString _ => true
  | _ => false
  end.

(** A number other than [NaN]. *)
Definition is_number (v : JSValue) : bool :=
  match v with
  | JNumber (Dec _ _) => true
  | _ => false
  end.

Definition is_array_of (p : JSValue -> bool) (v : JSValue) : bool :=
  match v with
  | JArray items => forallb p items
  | _ => false
  end.

Definition absent_or (p : JSValue -> bool) (v : JSValue) : bool :=
  match v with
  | JUndefined => true
  | _ => p v
  end.

(** A Definition: an object with a string [type] and a string [value]. *)
Definition is_definition (v : JSValue) : bool :=
  match v with
  | JObject props => is_string (get "type" props) && is_string (get "value" props)
  | _ => false
  end.

(** ** The loops of [safeParse], by name *)

(** The loop of [safeParse] over the shape of an object. *)
Definition parse_shape (isUrl : string -> bool) (at_ : list PathSegment)
    (props : list (string * JSValue))
    : list (string * ZodType) -> list ZodIssue + list (string * JSValue) :=
  fix each (sh : list (string * ZodType)) :=
    match sh with
    | [] => inr []
    | (key, t') :: sh' =>
        add_prop key (has key props)
                 (safeParse isUrl t' (at_ ++ [Key key])%list (get key props))
                 (each sh')
    end.

(** The loop of [safeParse] over the items of an array. *)
Definition parse_items (isUrl : string -> bool) (item : ZodType)
    (at_ : list PathSegment)
    : nat -> list JSValue -> list ZodIssue + list JSValue :=
  fix each (i : nat) (xs : list JSValue) :=
    match xs with
    | [] => inr []
    | x :: xs' =>
        add_item (safeParse isUrl item (at_ ++ [Index i])%list x) (each (S i) xs')
    end.

(** No key twice in a list of keys, and in every object of a schema (an
    object literal of the source has each key once). *)
Fixpoint distinct (keys : list string) : bool :=
  match keys with
  | [] => true
  | k :: rest => negb (existsb (String.eqb k) rest) && distinct rest
  end.

Fixpoint unique_keys (t : ZodType) : bool :=
  match t with
  | ZArray item => unique_keys item
  | ZObject shape =>
      distinct (map fst shape)
      && (fix all (sh : list (string * ZodType)) :=
            match sh with
            | [] => true
            | (_, t') :: sh' => unique_keys t' && all sh'
            end) shape
  | ZOptional inner => unique_keys inner
  | _ => true
  end.

(** ** A sample service *)

(** Collaborators to run the operations on concrete inputs: a server
    that answers every request with an empty list, a parser that knows the
    texts [{}] and [[]] and refuses the others, a serialiser with a fixed
    text, and a URL test that asks for a scheme separator. *)
Module Sample.

Definition fetch (r : Request) : Completion Response :=
  Fulfilled (mkResponse true "OK" "[]").

Definition JSON_parse (s : string) : string + JSValue :=
  if String.eqb s "{}" then inr (JObject [])
  else if String.eqb s "[]" then inr (JArray [])
  else inl "Unexpected end of JSON input".

Definition JSON_stringify (v : JSValue) : string := "{}".

Definition isUrl (s : string) : bool := includes "://" s.

Definition geopose : JSValue :=
  JObject
    [ ("position",
        JObject [("lon", num 0 0); ("lat", num 0 0); ("h", num 0 0)]);
      ("quaternion",
        JObject [("x", num 0 0); ("y", num 0 0); ("z", num 0 0); ("w", num 1 0)]) ].

(** A record whose [refs] is the empty array. *)
Definition scr_empty_refs : JSValue :=
  JObject
    [ ("id", JString "a3683f12b334dea6");
      ("type", JString "scr");
      ("content",
        JObject
          [ ("id", JString "x");
            ("type", JString "3d");
            ("title", JString "t");
            ("refs", JArray []);
            ("geopose", geopose) ]) ].

(** A record with one Reference. *)
Definition scr_one_ref : JSValue :=
  JObject
    [ ("id", JString "a3683f12b334dea6");
      ("type", JString "scr");
      ("content",
        JObject
          [ ("id", JString "x");
            ("type", JString "3d");
            ("title", JString "t");
            ("refs",
              JArray
                [ JObject [ ("contentType", JString "model/gltf-binary");
                            ("url", JString "https://www.example.com/cat.glb") ] ]);
            ("geopose", geopose) ]) ].

(** A record without a top-level [id]. *)
Definition scr_no_id : JSValue :=
  JObject
    [ ("type", JString "scr");
      ("content",
        JObject
          [ ("id", JString "x");
            ("type", JString "3d");
            ("title", JString "t");
            ("geopose", geopose) ]) ].

Definition empty_file : File := mkFile "upload.json" (inl "{}").

Definition broken_file : File := mkFile "upload.json" (inl "{").

Definition online : World := mkWorld false [].

Definition offline : World := mkWorld true [].

End Sample.

(** ** Further sample collaborators *)

(** A server that cannot be reached, one that refuses every request, and
    a file upload: a file that cannot be read, and a file whose text the
    parser reads as a record with one property the schema does not name. *)
Module Upload.

Definition unreachable (r : Request) : Completion Response :=
  Failed (FetchError "Failed to fetch").

Definition refusing (r : Request) : Completion Response :=
  Fulfilled (mkResponse false "Not Found" "no such record").

Definition record : JSValue :=
  JObject
    [ ("type", JString "scr");
      ("content",
        JObject
          [ ("id", JString "x");
            ("type", JString "3d");
            ("title", JString "t");
            ("url", JString "https://www.example.com/cat.glb");
            ("geopose", Sample.geopose) ]);
      ("note", JString "draft") ].

(** What [scrNoIdSchema] keeps of [record]. *)
Definition stripped : JSValue :=
  JObject
    [ ("type", JString "scr");
      ("content",
        JObject
          [ ("id", JString "x");
            ("type", JString "3d");
            ("title", JString "t");
            ("geopose", Sample.geopose) ]) ].

Definition record_text : string := "the text of the record".

Definition JSON_parse (s : string) : string + JSValue :=
  if String.eqb s record_text then inr record
  else inl "Unexpected token".

Definition record_file : File := mkFile "upload.json" (inl record_text).

Definition unreadable_file : File :=
  mkFile "upload.json" (inr "NotReadableError").

End Upload.

(** ** Shared facts *)

Lemma world_eta (w : World) : mkWorld (local w) (network w) = w.
Proof. destruct w; reflexivity. Qed.

Lemma app_nil_world (w : World) : mkWorld (local w) (network w ++ [])%list = w.
Proof. rewrite app_nil_r. apply world_eta. Qed.

Lemma append_empty_r (s : string) : s ++ "" = s.
Proof. induction s as [|c s IH]; cbn; [reflexivity | now rewrite IH]. Qed.

Lemma eqb_empty (s : string) : String.eqb s "" = true <-> s = "".
Proof. apply String.eqb_eq. Qed.

Lemma length_zero (s : string) : (String.length s =? 0)%nat = true <-> s = "".
Proof.
  destruct s; simpl; split; intro H; try reflexivity; discriminate.
Qed.

Lemma missing_eqb (x : option string) :
  match x with None => true | Some s => String.eqb s "" end = true <-> missing x.
Proof.
  unfold missing. destruct x as [s|].
  - rewrite eqb_empty. split.
    + intros ->. now right.
    + intros [H|H]; [discriminate | now inversion H].
  - split; auto.
Qed.

Lemma missing_length (x : option string) :
  match x with None => true | Some s => (String.length s =? 0)%nat end = true
  <-> missing x.
Proof.
  unfold missing. destruct x as [s|].
  - rewrite length_zero. split.
    + intros ->. now right.
    + intros [H|H]; [discriminate | now inversion H].
  - split; auto.
Qed.

Lemma not_missing_eqb (x : option string) :
  ~ missing x ->
  match x with None => true | Some s => String.eqb s "" end = false.
Proof.
  intro H. destruct (match x with None => true | Some s => String.eqb s "" end) eqn:E.
  - exfalso. apply H, missing_eqb, E.
  - reflexivity.
Qed.

Lemma not_missing_length (x : option string) :
  ~ missing x ->
  match x with None => true | Some s => (String.length s =? 0)%nat end = false.
Proof.
  intro H.
  destruct (match x with None => true | Some s => (String.length s =? 0)%nat end) eqn:E.
  - exfalso. apply H, missing_length, E.
  - reflexivity.
Qed.

Lemma not_missing_truthy (x : option string) : ~ missing x -> truthy x = true.
Proof.
  intro H. destruct x as [s|]; simpl.
  - destruct (String.eqb s "") eqn:E; [|reflexivity].
    exfalso. apply H. right. now apply eqb_empty in E; subst.
  - exfalso. apply H. now left.
Qed.

Section AccessFacts.

Variable fetch : Request -> Completion Response.
Variable JSON_parse : string -> string + JSValue.
Variable JSON_stringify : JSValue -> string.
Variable isUrl : string -> bool.

(** [request] hands one request to [fetch], built from its arguments. *)
Lemma request_sends (url method body : string) (token : option string) (w : World) :
  exists r, built url method body token r
            /\ issues_requests (request fetch url method body token) w [r].
Proof.
  unfold issues_requests, request, bind, do_fetch.
  destruct (truthy token) eqn:T; eexists; (split; cycle 1).
  1, 3: destruct (fetch _) as [resp|e]; [destruct (ok resp)|]; reflexivity.
  all: constructor; simpl; rewrite ?T; reflexivity.
Qed.

(** A continuation that leaves the world alone keeps the requests. *)
Lemma bind_pure_issues {A B} (m : Async A) (k : A -> Async B) (w : World)
    (rs : list Request) :
  (forall a w', snd (k a w') = w') ->
  issues_requests m w rs -> issues_requests (bind m k) w rs.
Proof.
  unfold issues_requests, bind. intros Hk Hm.
  destruct (m w) as [[a|e] w']; simpl in *; [rewrite Hk|]; exact Hm.
Qed.

Lemma parse_json_world (s : string) (w : World) :
  snd (parse_json JSON_parse s w) = w.
Proof. unfold parse_json. destruct (JSON_parse s); reflexivity. Qed.

Lemma ret_world {A} (a : A) (w : World) : snd (ret a w) = w.
Proof. reflexivity. Qed.

Lemma zod_parse_world (schema : ZodType) (v : JSValue) (w : World) :
  snd (zod_parse isUrl schema v w) = w.
Proof. unfold zod_parse. destruct (safeParse _ _ _ _); reflexivity. Qed.

Lemma zod_parse_success (schema : ZodType) (v data : JSValue) (w : World) :
  safeParse isUrl schema [] v = Success data ->
  zod_parse isUrl schema v w = (Fulfilled data, w).
Proof. unfold zod_parse. now intros ->. Qed.

Lemma zod_parse_failure (schema : ZodType) (v : JSValue) (issues : list ZodIssue)
    (w : World) :
  safeParse isUrl schema [] v = Failure issues ->
  zod_parse isUrl schema v w = (Failed (ZodError issues), w).
Proof. unfold zod_parse. now intros ->. Qed.

(** *** List-by-location *)

Lemma getContentsAtLocation_offline url topic h3Index keywords w :
  local w = true ->
  returns_offline (getContentsAtLocation fetch JSON_parse url topic h3Index keywords)
                  w localResults.
Proof.
  intro L. unfold returns_offline, getContentsAtLocation, bind, read_local.
  now rewrite L.
Qed.

Lemma getContentsAtLocation_invalid url topic h3Index keywords w :
  local w = false -> missing topic \/ missing h3Index ->
  fails_early (getContentsAtLocation fetch JSON_parse url topic h3Index keywords) w
              (Error ("Check parameters: " ++ show topic ++ " " ++ show h3Index)).
Proof.
  intros L M. unfold fails_early, getContentsAtLocation, bind, read_local.
  rewrite L.
  replace (_ || _) with true; [reflexivity|].
  symmetry. apply orb_true_iff. now rewrite !missing_eqb.
Qed.

Lemma getContentsAtLocation_online url topic h3Index keywords w :
  local w = false -> ~ missing topic -> ~ missing h3Index ->
  exists r,
    built (url ++ "/" ++ scrsPath ++ "/" ++ show topic ++ "?h3Index=" ++ show h3Index
             ++ match keywords with
                | Some k => if String.eqb k "" then "" else "&keywords=" ++ k
                | None => ""
                end)
          GET_METHOD "" None r
    /\ issues_requests
         (getContentsAtLocation fetch JSON_parse url topic h3Index keywords) w [r].
Proof.
  intros L T H. destruct w as [l n]; simpl in L; subst l.
  destruct (request_sends
              (url ++ "/" ++ scrsPath ++ "/" ++ show topic ++ "?h3Index=" ++ show h3Index
                 ++ match keywords with
                    | Some k => if String.eqb k "" then "" else "&keywords=" ++ k
                    | None => ""
                    end)
              GET_METHOD "" None (mkWorld false n)) as (r & B & I).
  exists r. split; [exact B|].
  unfold issues_requests, getContentsAtLocation, bind at 1, read_local.
  cbn [local]. rewrite (not_missing_eqb _ T), (not_missing_eqb _ H). cbn [orb].
  apply (bind_pure_issues _ _ (mkWorld false n)); [intros; apply parse_json_world|].
  destruct keywords as [k|]; exact I.
Qed.

(** *** Get-by-id *)

Lemma getContentWithId_offline url topic id w :
  local w = true ->
  returns_offline (getContentWithId fetch JSON_parse url topic id) w localResult.
Proof.
  intro L. unfold returns_offline, getContentWithId, bind, read_local.
  now rewrite L.
Qed.

Lemma getContentWithId_invalid url topic id w :
  local w = false ->
  match id with None => true | Some i => (String.length i <? 16)%nat end = true ->
  fails_early (getContentWithId fetch JSON_parse url topic id) w
              (Error ("Check parameters: " ++ show id)).
Proof.
  intros L S. unfold fails_early, getContentWithId, bind, read_local.
  now rewrite L, S.
Qed.

Lemma getContentWithId_online url topic id w :
  local w = false ->
  match id with None => true | Some i => (String.length i <? 16)%nat end = false ->
  exists r,
    built (url ++ "/" ++ scrsPath ++ "/" ++ topic ++ "/" ++ show id) GET_METHOD "" None r
    /\ issues_requests (getContentWithId fetch JSON_parse url topic id) w [r].
Proof.
  intros L S. destruct w as [l n]; simpl in L; subst l.
  destruct (request_sends (url ++ "/" ++ scrsPath ++ "/" ++ topic ++ "/" ++ show id)
                          GET_METHOD "" None (mkWorld false n)) as (r & B & I).
  exists r. split; [exact B|].
  unfold issues_requests, getContentWithId, bind at 1, read_local.
  cbn [local]. rewrite S.
  apply (bind_pure_issues _ _ (mkWorld false n)); [intros; apply parse_json_world | exact I].
Qed.

(** *** List-for-tenant and Delete-by-id *)

Lemma searchContentsForTenant_sends url topic token w :
  exists r,
    built (url ++ "/tenant/" ++ scrsPath ++ "/" ++ topic) GET_METHOD "" token r
    /\ issues_requests (searchContentsForTenant fetch JSON_parse url topic token) w [r].
Proof.
  destruct (request_sends (url ++ "/tenant/" ++ scrsPath ++ "/" ++ topic)
                          GET_METHOD "" token w) as (r & B & I).
  exists r. split; [exact B|].
  apply bind_pure_issues; [intros; apply parse_json_world | exact I].
Qed.

Lemma deleteWithId_sends url topic id token w :
  exists r,
    built (url ++ "/" ++ scrsPath ++ "/" ++ topic ++ "/" ++ id) DELETE_METHOD "" token r
    /\ issues_requests (deleteWithId fetch url topic id token) w [r].
Proof.
  destruct (request_sends (url ++ "/" ++ scrsPath ++ "/" ++ topic ++ "/" ++ id)
                          DELETE_METHOD "" token w) as (r & B & I).
  exists r. split; [exact B|].
  apply bind_pure_issues; [intros; apply ret_world | exact I].
Qed.

(** *** Create *)

Lemma postContent_offline url topic scr token w :
  local w = true ->
  returns_offline (postContent fetch JSON_stringify isUrl url topic scr token) w "OK".
Proof.
  intro L. unfold returns_offline, postContent, bind, read_local.
  now rewrite L.
Qed.

Lemma postContent_invalid url topic scr token w :
  local w = false -> missing token ->
  fails_early (postContent fetch JSON_stringify isUrl url topic scr token) w
              (Error ("Check parameter: " ++ show token)).
Proof.
  intros L M. unfold fails_early, postContent, bind, read_local.
  rewrite L. apply missing_length in M. now rewrite M.
Qed.

Lemma postContent_rejected url topic scr token issues w :
  local w = false -> ~ missing token ->
  safeParse isUrl scrNoIdSchema [] scr = Failure issues ->
  fails_early (postContent fetch JSON_stringify isUrl url topic scr token) w
              (ZodError issues).
Proof.
  intros L M F. unfold fails_early, postContent, bind, read_local.
  rewrite L, (not_missing_length _ M), (zod_parse_failure _ _ _ _ F). reflexivity.
Qed.

Lemma postContent_online url topic scr token data w :
  local w = false -> ~ missing token ->
  safeParse isUrl scrNoIdSchema [] scr = Success data ->
  exists r,
    built (url ++ "/" ++ scrsPath ++ "/" ++ topic) POST_METHOD (JSON_stringify scr) token r
    /\ issues_requests (postContent fetch JSON_stringify isUrl url topic scr token) w [r].
Proof.
  intros L M S. destruct w as [l n]; simpl in L; subst l.
  destruct (request_sends (url ++ "/" ++ scrsPath ++ "/" ++ topic)
                          POST_METHOD (JSON_stringify scr) token (mkWorld false n))
    as (r & B & I).
  exists r. split; [exact B|].
  unfold issues_requests, postContent, bind at 1, read_local.
  cbn [local]. rewrite (not_missing_length _ M).
  unfold bind at 1. rewrite (zod_parse_success _ _ _ _ S).
  apply (bind_pure_issues _ _ (mkWorld false n)); [intros; apply ret_world | exact I].
Qed.

(** *** Replace *)

Lemma putContent_offline url topic scr id token w :
  local w = true ->
  returns_offline (putContent fetch JSON_stringify isUrl url topic scr id token) w "OK".
Proof.
  intro L. unfold returns_offline, putContent, bind, read_local.
  now rewrite L.
Qed.

Lemma putContent_invalid url topic scr id token w :
  local w = false -> missing id \/ missing token ->
  fails_early (putContent fetch JSON_stringify isUrl url topic scr id token) w
              (Error ("Check parameters: " ++ show id ++ ", " ++ show token)).
Proof.
  intros L M. unfold fails_early, putContent, bind, read_local.
  rewrite L.
  replace (_ || _) with true; [reflexivity|].
  symmetry. apply orb_true_iff. now rewrite !missing_length.
Qed.

Lemma putContent_rejected url topic scr id token issues w :
  local w = false -> ~ missing id -> ~ missing token ->
  safeParse isUrl scrSchema [] scr = Failure issues ->
  fails_early (putContent fetch JSON_stringify isUrl url topic scr id token) w
              (ZodError issues).
Proof.
  intros L I M F. unfold fails_early, putContent, bind, read_local.
  rewrite L, (not_missing_length _ I), (not_missing_length _ M). cbn [orb].
  now rewrite (zod_parse_failure _ _ _ _ F).
Qed.

Lemma putContent_online url topic scr id token data w :
  local w = false -> ~ missing id -> ~ missing token ->
  safeParse isUrl scrSchema [] scr = Success data ->
  exists r,
    built (url ++ "/" ++ scrsPath ++ "/" ++ topic ++ "/" ++ show id)
          PUT_METHOD (JSON_stringify scr) token r
    /\ issues_requests (putContent fetch JSON_stringify isUrl url topic scr id token) w [r].
Proof.
  intros L Hid M S. destruct w as [l n]; simpl in L; subst l.
  destruct (request_sends (url ++ "/" ++ scrsPath ++ "/" ++ topic ++ "/" ++ show id)
                          PUT_METHOD (JSON_stringify scr) token (mkWorld false n))
    as (r & B & I).
  exists r. split; [exact B|].
  unfold issues_requests, putContent, bind at 1, read_local.
  cbn [local]. rewrite (not_missing_length _ Hid), (not_missing_length _ M). cbn [orb].
  unfold bind at 1. rewrite (zod_parse_success _ _ _ _ S).
  apply (bind_pure_issues _ _ (mkWorld false n)); [intros; apply ret_world | exact I].
Qed.

(** *** Every call *)

Lemma fails_early_issues {A} (m : Async A) (w : World) (e : Exn) :
  fails_early m w e -> issues_requests m w [].
Proof.
  unfold fails_early, issues_requests. intros ->. simpl.
  symmetry. apply app_nil_world.
Qed.

Lemma returns_offline_issues {A} (m : Async A) (w : World) (a : A) :
  returns_offline m w a -> issues_requests m w [].
Proof.
  unfold returns_offline, issues_requests. intros ->. simpl.
  symmetry. apply app_nil_world.
Qed.

Lemma issues_issued {A} (m : Async A) (w : World) (rs : list Request) :
  issues_requests m w rs -> issued m w = rs.
Proof.
  unfold issues_requests, issued. intros ->. simpl.
  rewrite skipn_app, Nat.sub_diag, skipn_all. reflexivity.
Qed.

Lemma as_value_issues (m : Async string) (w : World) (rs : list Request) :
  issues_requests m w rs -> issues_requests (as_value m) w rs.
Proof. apply bind_pure_issues. intros; apply ret_world. Qed.

(** A step that leaves the world alone either fails there or hands its
    value to the rest. *)
Lemma bind_pure_step {A B} (m : Async A) (k : A -> Async B) (w : World) :
  snd (m w) = w ->
  (exists e, bind m k w = (Failed e, w)) \/ (exists a, bind m k w = k a w).
Proof.
  unfold bind. destruct (m w) as [[a|e] w']; simpl; intros ->.
  - right. now exists a.
  - left. now exists e.
Qed.

Lemma getFileContent_world (file : option File) (w : World) :
  snd (getFileContent file w) = w.
Proof.
  unfold getFileContent. destruct file as [f|]; [|reflexivity].
  destruct (readAsText f); reflexivity.
Qed.

(** Create hands at most one request to [fetch], a POST with the token. *)
Lemma postContent_requests url topic scr token w :
  issues_requests (postContent fetch JSON_stringify isUrl url topic scr token) w []
  \/ exists r,
      built (url ++ "/" ++ scrsPath ++ "/" ++ topic) POST_METHOD (JSON_stringify scr) token r
      /\ ~ missing token
      /\ issues_requests (postContent fetch JSON_stringify isUrl url topic scr token) w [r].
Proof.
  destruct (local w) eqn:L.
  { left. eapply returns_offline_issues, postContent_offline, L. }
  destruct (match token with None => true | Some t => (String.length t =? 0)%nat end) eqn:M.
  { left. eapply fails_early_issues, postContent_invalid; [exact L|].
    now apply missing_length. }
  assert (~ missing token) as M'.
  { intro H. apply missing_length in H. congruence. }
  destruct (safeParse isUrl scrNoIdSchema [] scr) as [data|issues] eqn:S.
  - right. destruct (postContent_online url topic scr token data w L M' S) as (r & B & I).
    exists r. auto.
  - left. eapply fails_early_issues, postContent_rejected; eauto.
Qed.

Lemma postScrFile_requests url topic file token w :
  issues_requests
    (postScrFile fetch JSON_parse JSON_stringify isUrl url topic file token) w []
  \/ exists r body,
      built (url ++ "/" ++ scrsPath ++ "/" ++ topic) POST_METHOD body token r
      /\ ~ missing token
      /\ issues_requests
           (postScrFile fetch JSON_parse JSON_stringify isUrl url topic file token) w [r].
Proof.
  unfold postScrFile.
  destruct (bind_pure_step (getFileContent file)
              (fun result =>
                 parsedResult <- parse_json JSON_parse result ;;
                 scrNoId <- zod_parse isUrl scrNoIdSchema parsedResult ;;
                 postContent fetch JSON_stringify isUrl url topic scrNoId token)
              w (getFileContent_world file w)) as [[e E]|[result E]].
  { left. eapply fails_early_issues, E. }
  unfold issues_requests. rewrite E.
  destruct (bind_pure_step (parse_json JSON_parse result)
              (fun parsedResult =>
                 scrNoId <- zod_parse isUrl scrNoIdSchema parsedResult ;;
                 postContent fetch JSON_stringify isUrl url topic scrNoId token)
              w (parse_json_world result w)) as [[e E1]|[parsed E1]].
  { left. rewrite E1. simpl. symmetry. apply app_nil_world. }
  rewrite E1.
  destruct (bind_pure_step (zod_parse isUrl scrNoIdSchema parsed)
              (fun scrNoId =>
                 postContent fetch JSON_stringify isUrl url topic scrNoId token)
              w (zod_parse_world scrNoIdSchema parsed w)) as [[e E2]|[scrNoId E2]].
  { left. rewrite E2. simpl. symmetry. apply app_nil_world. }
  rewrite E2.
  destruct (postContent_requests url topic scrNoId token w) as [I|(r & B & M & I)].
  - left. exact I.
  - right. exists r, (JSON_stringify scrNoId). auto.
Qed.

Lemma putContent_requests url topic scr id token w :
  issues_requests (putContent fetch JSON_stringify isUrl url topic scr id token) w []
  \/ exists r,
      built (url ++ "/" ++ scrsPath ++ "/" ++ topic ++ "/" ++ show id)
            PUT_METHOD (JSON_stringify scr) token r
      /\ ~ missing token
      /\ issues_requests (putContent fetch JSON_stringify isUrl url topic scr id token) w [r].
Proof.
  destruct (local w) eqn:L.
  { left. eapply returns_offline_issues, putContent_offline, L. }
  destruct (match id with None => true | Some t => (String.length t =? 0)%nat end) eqn:Mi.
  { left. eapply fails_early_issues, putContent_invalid; [exact L|].
    left. now apply missing_length. }
  destruct (match token with None => true | Some t => (String.length t =? 0)%nat end) eqn:M.
  { left. eapply fails_early_issues, putContent_invalid; [exact L|].
    right. now apply missing_length. }
  assert (~ missing id) as Mi'.
  { intro H. apply missing_length in H. congruence. }
  assert (~ missing token) as M'.
  { intro H. apply missing_length in H. congruence. }
  destruct (safeParse isUrl scrSchema [] scr) as [data|issues] eqn:S.
  - right.
    destruct (putContent_online url topic scr id token data w L Mi' M' S) as (r & B & I).
    exists r. auto.
  - left. eapply fails_early_issues, putContent_rejected; eauto.
Qed.

Lemma getContentsAtLocation_requests url topic h3Index keywords w :
  issues_requests (getContentsAtLocation fetch JSON_parse url topic h3Index keywords) w []
  \/ exists r u,
      built u GET_METHOD "" None r
      /\ issues_requests
           (getContentsAtLocation fetch JSON_parse url topic h3Index keywords) w [r].
Proof.
  destruct (local w) eqn:L.
  { left. eapply returns_offline_issues, getContentsAtLocation_offline, L. }
  destruct (match topic with None => true | Some t => String.eqb t "" end) eqn:T.
  { left. eapply fails_early_issues, getContentsAtLocation_invalid; [exact L|].
    left. now apply missing_eqb. }
  destruct (match h3Index with None => true | Some t => String.eqb t "" end) eqn:H.
  { left. eapply fails_early_issues, getContentsAtLocation_invalid; [exact L|].
    right. now apply missing_eqb. }
  right.
  destruct (getContentsAtLocation_online url topic h3Index keywords w L) as (r & B & I).
  - intro M. apply missing_eqb in M. congruence.
  - intro M. apply missing_eqb in M. congruence.
  - eauto.
Qed.

Lemma getContentWithId_requests url topic id w :
  issues_requests (getContentWithId fetch JSON_parse url topic id) w []
  \/ exists r,
      built (url ++ "/" ++ scrsPath ++ "/" ++ topic ++ "/" ++ show id) GET_METHOD "" None r
      /\ issues_requests (getContentWithId fetch JSON_parse url topic id) w [r].
Proof.
  destruct (local w) eqn:L.
  { left. eapply returns_offline_issues, getContentWithId_offline, L. }
  destruct (match id with None => true | Some i => (String.length i <? 16)%nat end) eqn:S.
  - left. eapply fails_early_issues, getContentWithId_invalid; eauto.
  - right. apply getContentWithId_online; assumption.
Qed.

(** Every call hands at most one request to [fetch]; the request has the
    method of the operation and the token of the call. *)
Lemma perform_requests (c : Call) (w : World) :
  issues_requests (perform fetch JSON_parse JSON_stringify isUrl c) w []
  \/ exists r u body,
      built u (method_of c) body (supplied_token c) r
      /\ issues_requests (perform fetch JSON_parse JSON_stringify isUrl c) w [r].
Proof.
  destruct c; cbn [perform method_of supplied_token].
  - destruct (getContentsAtLocation_requests url topic h3Index keywords w)
      as [I|(r & u & B & I)]; [now left | right; eauto].
  - unfold getContentAtLocation.
    destruct (getContentsAtLocation_requests url topic h3Index
                (Some match keywords with Some k => k | None => "" end) w)
      as [I|(r & u & B & I)]; [now left | right; eauto].
  - destruct (getContentWithId_requests url topic id w)
      as [I|(r & B & I)]; [now left | right; eauto].
  - right. destruct (searchContentsForTenant_sends url topic token w) as (r & B & I).
    eauto.
  - destruct (postContent_requests url topic scr token w) as [I|(r & B & _ & I)].
    + left. now apply as_value_issues.
    + right. exists r. eauto using as_value_issues.
  - destruct (postScrFile_requests url topic file token w) as [I|(r & body & B & _ & I)].
    + left. now apply as_value_issues.
    + right. exists r. eauto using as_value_issues.
  - destruct (putContent_requests url topic scr id token w) as [I|(r & B & _ & I)].
    + left. now apply as_value_issues.
    + right. exists r. eauto using as_value_issues.
  - right. destruct (deleteWithId_sends url topic id token w) as (r & B & I).
    exists r. eauto using as_value_issues.
Qed.

End AccessFacts.

(** ** Facts about the schemas *)

Section SchemaFacts.

Variable isUrl : string -> bool.

(** An object passes only if each property the shape names passes. *)
Lemma safeParse_object_field (shape : list (string * ZodType))
    (at_ : list PathSegment) (props : list (string * JSValue)) (data : JSValue)
    (key : string) (t : ZodType) :
  safeParse isUrl (ZObject shape) at_ (JObject props) = Success data ->
  In (key, t) shape ->
  exists d, safeParse isUrl t (at_ ++ [Key key])%list (get key props) = Success d.
Proof.
  cbn [safeParse].
  match goal with
  | |- match ?f shape with _ => _ end = _ -> _ => set (each := f)
  end.
  intros H. assert (exists out, each shape = inr out) as [out Hout].
  { destruct (each shape); [discriminate | eauto]. }
  clear H. revert out Hout.
  induction shape as [|[k t'] sh IH]; intros out Hout Hin; [contradiction|].
  cbn in Hout. fold each in Hout.
  destruct (safeParse isUrl t' (at_ ++ [Key k])%list (get k props)) as [v|] eqn:E;
    destruct (each sh) as [|rest] eqn:R; cbn in Hout; try discriminate.
  destruct Hin as [Heq|Hin].
  - inversion Heq; subst. eauto.
  - eapply IH; eauto.
Qed.

(** An array passes only if each of its items passes. *)
Lemma safeParse_array_items (item : ZodType) (at_ : list PathSegment)
    (items : list JSValue) (data : JSValue) :
  safeParse isUrl (ZArray item) at_ (JArray items) = Success data ->
  Forall (fun x => exists i d,
            safeParse isUrl item (at_ ++ [Index i])%list x = Success d) items.
Proof.
  cbn [safeParse].
  match goal with
  | |- match ?f 0 items with _ => _ end = _ -> _ => set (each := f)
  end.
  intros H. assert (exists out, each 0 items = inr out) as [out Hout].
  { destruct (each 0 items); [discriminate | eauto]. }
  clear H. revert out Hout. generalize 0.
  induction items as [|x xs IH]; intros n out Hout; [constructor|].
  cbn in Hout. fold each in Hout.
  destruct (safeParse isUrl item (at_ ++ [Index n])%list x) as [v|] eqn:E;
    destruct (each (S n) xs) as [|rest] eqn:R; cbn in Hout; try discriminate.
  constructor; eauto.
Qed.

Lemma safeParse_string (at_ : list PathSegment) (v data : JSValue) :
  safeParse isUrl ZString at_ v = Success data -> exists s, v = JString s.
Proof. destruct v; cbn; intro H; try discriminate. eauto. Qed.

Lemma safeParse_url (at_ : list PathSegment) (v data : JSValue) :
  safeParse isUrl ZStringUrl at_ v = Success data ->
  exists s, v = JString s /\ isUrl s = true.
Proof.
  destruct v; cbn; intro H; try discriminate.
  destruct (isUrl s) eqn:U; [eauto | discriminate].
Qed.

Lemma safeParse_object_input (shape : list (string * ZodType))
    (at_ : list PathSegment) (v data : JSValue) :
  safeParse isUrl (ZObject shape) at_ v = Success data ->
  exists props, v = JObject props.
Proof. destruct v; cbn [safeParse mismatch]; intro H; try discriminate. eauto. Qed.

Lemma safeParse_array_input (item : ZodType) (at_ : list PathSegment)
    (v data : JSValue) :
  safeParse isUrl (ZArray item) at_ v = Success data ->
  exists items, v = JArray items.
Proof. destruct v; cbn [safeParse mismatch]; intro H; try discriminate. eauto. Qed.

Lemma safeParse_optional (inner : ZodType) (at_ : list PathSegment) (v : JSValue) :
  v <> JUndefined ->
  safeParse isUrl (ZOptional inner) at_ v = safeParse isUrl inner at_ v.
Proof. destruct v; intro H; [contradiction| | | | | |]; reflexivity. Qed.

(** What [refSchema] lets through is a well-formed Reference. *)
Lemma refSchema_well_formed (at_ : list PathSegment) (v data : JSValue) :
  safeParse isUrl refSchema at_ v = Success data ->
  well_formed_reference isUrl v = true.
Proof.
  intro H. destruct (safeParse_object_input _ _ _ _ H) as [props ->].
  destruct (safeParse_object_field _ _ _ _ "contentType" ZString H) as [d1 H1];
    [cbn; auto|].
  destruct (safeParse_object_field _ _ _ _ "url" ZStringUrl H) as [d2 H2];
    [cbn; auto|].
  apply safeParse_string in H1 as [s1 E1].
  apply safeParse_url in H2 as (s2 & E2 & U).
  unfold well_formed_reference. now rewrite E1, E2.
Qed.

(** What [contentSchema] lets through has, for [refs], nothing or an array
    of well-formed References. *)
Lemma contentSchema_refs (at_ : list PathSegment)
    (content : list (string * JSValue)) (data : JSValue) :
  safeParse isUrl contentSchema at_ (JObject content) = Success data ->
  get "refs" content = JUndefined
  \/ exists items, get "refs" content = JArray items
                   /\ forallb (well_formed_reference isUrl) items = true.
Proof.
  intro H.
  destruct (safeParse_object_field _ _ _ _ "refs" (ZOptional (ZArray refSchema)) H)
    as [d Hd]; [cbn; auto 10|].
  destruct (get "refs" content) as [ | |b|n|s|items|props] eqn:R;
    [now left| | | | | |]; right;
    (rewrite safeParse_optional in Hd by discriminate);
    pose proof (safeParse_array_input _ _ _ _ Hd) as [items' E];
    inversion E; subst items'.
  exists items. split; [reflexivity|].
  apply safeParse_array_items in Hd.
  apply forallb_forall. intros x Hx.
  rewrite Forall_forall in Hd. destruct (Hd x Hx) as (i & dx & Hdx).
  eapply refSchema_well_formed, Hdx.
Qed.

Lemma scrSchema_shape :
  scrSchema
  = ZObject [ ("type", ZString); ("content", contentSchema);
              ("tenant", ZOptional ZString); ("timestamp", ZOptional ZNumber);
              ("id", ZString) ].
Proof. reflexivity. Qed.

(** Both record schemas check [content] against [contentSchema]. *)
Lemma record_content (schema : ZodType) (candidate data : JSValue) :
  schema = scrNoIdSchema \/ schema = scrSchema ->
  safeParse isUrl schema [] candidate = Success data ->
  exists props d,
    candidate = JObject props
    /\ safeParse isUrl contentSchema [Key "content"] (get "content" props) = Success d.
Proof.
  intros [-> | ->] H; [unfold scrNoIdSchema in H | rewrite scrSchema_shape in H];
    destruct (safeParse_object_input _ _ _ _ H) as [props ->];
    destruct (safeParse_object_field _ _ _ _ "content" contentSchema H) as [d Hd];
    try (cbn; auto); eauto.
Qed.

(** [scrSchema] asks for a string [id] at the top of the record. *)
Lemma scrSchema_id (candidate data : JSValue) :
  safeParse isUrl scrSchema [] candidate = Success data ->
  exists s, top_level_id candidate = JString s.
Proof.
  rewrite scrSchema_shape. intro H.
  destruct (safeParse_object_input _ _ _ _ H) as [props ->].
  destruct (safeParse_object_field _ _ _ _ "id" ZString H) as [d Hd]; [cbn; auto 10|].
  apply safeParse_string in Hd. exact Hd.
Qed.

End SchemaFacts.

(** ** The properties of the specification *)

Section Properties.

Variable fetch : Request -> Completion Response.
Variable JSON_parse : string -> string + JSValue.
Variable JSON_stringify : JSValue -> string.
Variable isUrl : string -> bool.

(** The operations and the flag. With [local] enabled, List-by-location,
    Get-by-id, Create and Replace hand nothing to [fetch] and return the
    canned records ([localResults], [localResult]) or the string OK, for all
    arguments. List-for-tenant and Delete-by-id do not read the flag: each
    still hands its one request to [fetch]. *)
Lemma offline_operations (url topic id : string)
    (otopic h3Index keywords oid token : option string) (scr : JSValue) (w : World) :
  local w = true ->
  returns_offline (getContentsAtLocation fetch JSON_parse url otopic h3Index keywords)
                  w localResults
  /\ returns_offline (getContentWithId fetch JSON_parse url topic oid) w localResult
  /\ returns_offline (postContent fetch JSON_stringify isUrl url topic scr token) w "OK"
  /\ returns_offline (putContent fetch JSON_stringify isUrl url topic scr oid token) w "OK"
  /\ (exists r, issued (searchContentsForTenant fetch JSON_parse url topic token) w = [r]
                /\ req_method r = GET_METHOD
                /\ req_url r = url ++ "/tenant/scrs/" ++ topic)
  /\ (exists r, issued (deleteWithId fetch url topic id token) w = [r]
                /\ req_method r = DELETE_METHOD
                /\ req_url r = url ++ "/scrs/" ++ topic ++ "/" ++ id).
Proof.
  intro L. repeat split.
  - now apply getContentsAtLocation_offline.
  - now apply getContentWithId_offline.
  - now apply postContent_offline.
  - now apply putContent_offline.
  - destruct (searchContentsForTenant_sends fetch JSON_parse url topic token w)
      as (r & B & I).
    exists r. destruct B. repeat split; auto using issues_issued.
  - destruct (deleteWithId_sends fetch url topic id token w) as (r & B & I).
    exists r. destruct B. repeat split; auto using issues_issued.
Qed.

(** C3. With [local] disabled, Replace fails with the parameter error
    (InvalidArgument) and hands nothing to [fetch] when [id] or [token] is
    missing; otherwise the record is checked against [scrSchema], whose
    top-level [id] must be a string: a record that fails is refused with
    the issues and nothing is sent, and a record that passes is sent by one
    PUT to [url/scrs/topic/id]. *)
Theorem C3_putContent_checks (url topic : string) (scr : JSValue)
    (id token : option string) (w : World) :
  local w = false ->
  (missing id \/ missing token ->
   fails_early (putContent fetch JSON_stringify isUrl url topic scr id token) w
               (Error ("Check parameters: " ++ show id ++ ", " ++ show token)))
  /\ (~ missing id -> ~ missing token ->
      (forall issues,
          safeParse isUrl scrSchema [] scr = Failure issues ->
          fails_early (putContent fetch JSON_stringify isUrl url topic scr id token) w
                      (ZodError issues))
      /\ (forall data,
          safeParse isUrl scrSchema [] scr = Success data ->
          (exists s, top_level_id scr = JString s)
          /\ exists r,
              issued (putContent fetch JSON_stringify isUrl url topic scr id token) w = [r]
              /\ req_method r = PUT_METHOD
              /\ req_url r = url ++ "/scrs/" ++ topic ++ "/" ++ show id
              /\ req_body r = Some (JSON_stringify scr))).
Proof.
  intro L. split; [|intros Hid Htoken; split].
  - intro M. now apply putContent_invalid.
  - intros issues F. now apply putContent_rejected.
  - intros data S. split; [eapply scrSchema_id, S|].
    destruct (putContent_online fetch JSON_stringify isUrl url topic scr id token
                data w L Hid Htoken S) as (r & B & I).
    exists r. destruct B. repeat split; auto using issues_issued.
Qed.

(** C4. With [local] disabled, Get-by-id fails with the parameter error
    (InvalidArgument) and hands nothing to [fetch] when [id] is shorter than
    16 characters (or [undefined]); with an [id] of 16 characters or more it
    hands one GET for exactly [url/scrs/topic/id] to [fetch]. *)
Theorem C4_getContentWithId_length (url topic : string) (id : option string)
    (w : World) :
  local w = false ->
  ((id = None \/ exists i, id = Some i /\ String.length i < 16) ->
   fails_early (getContentWithId fetch JSON_parse url topic id) w
               (Error ("Check parameters: " ++ show id)))
  /\ (forall i, id = Some i -> 16 <= String.length i ->
      exists r,
        issued (getContentWithId fetch JSON_parse url topic id) w = [r]
        /\ req_method r = GET_METHOD
        /\ req_url r = url ++ "/scrs/" ++ topic ++ "/" ++ i).
Proof.
  intro L. split.
  - intro H. apply getContentWithId_invalid; [exact L|].
    destruct H as [->|(i & -> & Hlen)]; [reflexivity|].
    now apply Nat.ltb_lt.
  - intros i -> Hlen.
    destruct (getContentWithId_online fetch JSON_parse url topic (Some i) w L)
      as (r & B & I).
    + apply Nat.ltb_ge, Hlen.
    + exists r. destruct B. repeat split; auto using issues_issued.
Qed.

(** C5. With [local] disabled, List-by-location with a missing (empty or
    [undefined]) topic or location index fails with the parameter error
    (InvalidArgument) and hands nothing to [fetch]. *)
Theorem C5_getContentsAtLocation_parameters (url : string)
    (topic h3Index keywords : option string) (w : World) :
  local w = false ->
  missing topic \/ missing h3Index ->
  fails_early (getContentsAtLocation fetch JSON_parse url topic h3Index keywords) w
              (Error ("Check parameters: " ++ show topic ++ " " ++ show h3Index))
  /\ issued (getContentsAtLocation fetch JSON_parse url topic h3Index keywords) w = [].
Proof.
  intros L M.
  pose proof (getContentsAtLocation_invalid fetch JSON_parse url topic h3Index
                keywords w L M) as F.
  split; [exact F|].
  eapply issues_issued, fails_early_issues, F.
Qed.

(** C6. A List-by-location call that reaches the network ([local]
    disabled, topic and location index present) hands one request to
    [fetch]; its URL is [url/scrs/topic?h3Index=h3Index] when keywords is
    empty or left out, with no keywords parameter at all, and
    [url/scrs/topic?h3Index=h3Index&keywords=keywords] otherwise. *)
Theorem C6_getContentsAtLocation_url (url topic h3Index : string)
    (keywords : option string) (w : World) :
  local w = false -> topic <> "" -> h3Index <> "" ->
  exists r,
    issued (getContentsAtLocation fetch JSON_parse url (Some topic) (Some h3Index)
              keywords) w = [r]
    /\ (missing keywords ->
        req_url r = url ++ "/scrs/" ++ topic ++ "?h3Index=" ++ h3Index)
    /\ (forall k, keywords = Some k -> k <> "" ->
        req_url r = url ++ "/scrs/" ++ topic ++ "?h3Index=" ++ h3Index
                      ++ "&keywords=" ++ k).
Proof.
  intros L T H.
  destruct (getContentsAtLocation_online fetch JSON_parse url (Some topic)
              (Some h3Index) keywords w L) as (r & B & I).
  - intros [E|E]; [discriminate | inversion E; contradiction].
  - intros [E|E]; [discriminate | inversion E; contradiction].
  - exists r. destruct B as [U _ _ _ _ _]. cbn [show] in U.
    split; [now apply issues_issued|]. split.
    + intros [-> | ->]; rewrite U; cbn; now rewrite append_empty_r.
    + intros k -> K. rewrite U.
      destruct (String.eqb k "") eqn:E; [apply eqb_empty in E; contradiction|].
      reflexivity.
Qed.

(** C7 (as amended). Every request an operation hands to [fetch] has the
    header accept with the value [application/vnd.oscp+json; version=1.0;]
    (with the closing semicolon) and the header content-type with the value
    [application/json]; it has the header authorization, with the value
    Bearer and the token, exactly when the call supplies a non-empty token;
    and it has a body exactly when the operation is Create or Replace. *)
Theorem C7_request_construction (c : Call) (w : World) (r : Request) :
  In r (issued (perform fetch JSON_parse JSON_stringify isUrl c) w) ->
  header "accept" (req_headers r) = Some "application/vnd.oscp+json; version=1.0;"
  /\ header "content-type" (req_headers r) = Some "application/json"
  /\ (forall t, supplied_token c = Some t -> t <> "" ->
      header "authorization" (req_headers r) = Some ("Bearer " ++ t))
  /\ (missing (supplied_token c) -> header "authorization" (req_headers r) = None)
  /\ (req_body r <> None <-> creates_or_replaces c = true).
Proof.
  intro Hin.
  destruct (perform_requests fetch JSON_parse JSON_stringify isUrl c w)
    as [I|(r' & u & body & B & I)];
    apply issues_issued in I; rewrite I in Hin; [contradiction|].
  destruct Hin as [->|[]].
  destruct B as [_ _ A C Auth Body]. repeat split; auto.
  - intros t E T. rewrite Auth, E. cbn.
    destruct (String.eqb t "") eqn:Et; [apply eqb_empty in Et; contradiction|].
    reflexivity.
  - intros [E|E]; rewrite Auth, E; reflexivity.
  - intros Hb. destruct c; cbn in Body |- *; try reflexivity;
      exfalso; apply Hb; exact Body.
  - intros Hc. rewrite Body. destruct c; cbn in *; discriminate.
Qed.

(** C8. With [local] enabled, List-by-location returns the two canned
    records, with the ids a3683f12b334dea6 and d44a6818c119b51e in that
    order, and Create returns the string OK, whatever the arguments; neither
    hands anything to [fetch]. *)
Theorem C8_offline_fixtures (url topic : string)
    (otopic h3Index keywords token : option string) (scr : JSValue) (w : World) :
  local w = true ->
  (exists first second,
      getContentsAtLocation fetch JSON_parse url otopic h3Index keywords w
      = (Fulfilled (JArray [first; second]), w)
      /\ JArray [first; second] = localResults
      /\ ids (JArray [first; second])
         = [JString "a3683f12b334dea6"; JString "d44a6818c119b51e"])
  /\ issued (getContentsAtLocation fetch JSON_parse url otopic h3Index keywords) w = []
  /\ postContent fetch JSON_stringify isUrl url topic scr token w = (Fulfilled "OK", w)
  /\ issued (postContent fetch JSON_stringify isUrl url topic scr token) w = [].
Proof.
  intro L.
  pose proof (getContentsAtLocation_offline fetch JSON_parse url otopic h3Index
                keywords w L) as G.
  pose proof (postContent_offline fetch JSON_stringify isUrl url topic scr token w L)
    as P.
  repeat split.
  - do 2 eexists. split; [exact G | split; reflexivity].
  - eapply issues_issued, returns_offline_issues, G.
  - exact P.
  - eapply issues_issued, returns_offline_issues, P.
Qed.

(** C10. In both states of [local] and for all arguments, the deprecated
    [getContentAtLocation] settles as [getContentsAtLocation] does on the
    same arguments, and leaves the same world. *)
Theorem C10_deprecated_alias (url : string) (topic h3Index keywords : option string)
    (w : World) :
  getContentAtLocation fetch JSON_parse url topic h3Index keywords w
  = getContentsAtLocation fetch JSON_parse url topic h3Index keywords w.
Proof.
  unfold getContentAtLocation, getContentsAtLocation.
  destruct keywords; reflexivity.
Qed.

(** C2 (as amended). For a candidate record whose content carries [refs],
    the check against [scrNoIdSchema] or [scrSchema] succeeds only if [refs]
    is an array and each of its elements is a well-formed Reference (a
    string [contentType] and a string [url] that is a URL). The array may be
    empty. *)
Theorem C2_refs_elements_checked (schema : ZodType) (candidate : JSValue) :
  schema = scrNoIdSchema \/ schema = scrSchema ->
  content_refs candidate <> JUndefined ->
  accepts isUrl schema candidate = true ->
  exists items,
    content_refs candidate = JArray items
    /\ forallb (well_formed_reference isUrl) items = true.
Proof.
  intros Hschema Hrefs Hacc. unfold accepts in Hacc.
  destruct (safeParse isUrl schema [] candidate) as [data|] eqn:S; [|discriminate].
  destruct (record_content isUrl schema candidate data Hschema S)
    as (props & d & -> & Hcontent).
  destruct (safeParse_object_input _ _ _ _ _ Hcontent) as [content Econtent].
  rewrite Econtent in Hcontent.
  unfold content_refs in *. rewrite Econtent in *.
  destruct (contentSchema_refs isUrl _ _ _ Hcontent) as [U|H]; [contradiction | exact H].
Qed.

(** C9 (as amended). Create-from-file-content fails with a [SyntaxError]
    when the text of the file is not JSON, and with a [ZodError] listing the
    issues when the text parses but is refused by [scrNoIdSchema]; the two
    kinds of failure differ; in both cases nothing is handed to [fetch]. The
    failure is the one of the parser or of the schema check, whatever the
    name of the file. *)
Theorem C9_postScrFile_failures (url topic name text : string)
    (token : option string) (w : World) :
  (forall message,
      JSON_parse text = inl message ->
      fails_early (postScrFile fetch JSON_parse JSON_stringify isUrl url topic
                     (Some (mkFile name (inl text))) token) w
                  (SyntaxError message))
  /\ (forall parsed issues,
      JSON_parse text = inr parsed ->
      safeParse isUrl scrNoIdSchema [] parsed = Failure issues ->
      fails_early (postScrFile fetch JSON_parse JSON_stringify isUrl url topic
                     (Some (mkFile name (inl text))) token) w
                  (ZodError issues))
  /\ (forall message issues, SyntaxError message <> ZodError issues).
Proof.
  repeat split.
  - intros message E.
    unfold fails_early, postScrFile, bind, getFileContent, parse_json, ret, throw.
    cbn [readAsText]. now rewrite E.
  - intros parsed issues E F.
    unfold fails_early, postScrFile, bind, getFileContent, parse_json, zod_parse,
      ret, throw.
    cbn [readAsText]. now rewrite E, F.
  - discriminate.
Qed.

End Properties.

(** ** The properties on the sample service *)

(** C1. Every network-backed operation should skip the network when
    [local] is enabled and return a canned record or the string OK. The
    code does not do so for Delete-by-id and List-for-tenant: with [local]
    enabled each still hands its request to [fetch] and returns what the
    server answers. *)
Theorem C1_local_not_read_by_delete_and_tenant_list :
  local Sample.offline = true
  /\ deleteWithId Sample.fetch "https://svc" "3d" "a3683f12b334dea6" (Some "token")
                  Sample.offline
     = (Fulfilled "[]",
        mkWorld true
          [ mkRequest "https://svc/scrs/3d/a3683f12b334dea6" "delete"
              [ ("accept", "application/vnd.oscp+json; version=1.0;");
                ("content-type", "application/json");
                ("authorization", "Bearer token") ]
              None ])
  /\ searchContentsForTenant Sample.fetch Sample.JSON_parse "https://svc" "3d"
       (Some "token") Sample.offline
     = (Fulfilled (JArray []),
        mkWorld true
          [ mkRequest "https://svc/tenant/scrs/3d" "get"
              [ ("accept", "application/vnd.oscp+json; version=1.0;");
                ("content-type", "application/json");
                ("authorization", "Bearer token") ]
              None ]).
Proof. repeat split; reflexivity. Qed.

(** C2, as first stated, fails for an empty array: a record whose [refs]
    is [[]] passes both schemas, even when no string counts as a URL. *)
Lemma C2_empty_refs_accepted :
  content_refs Sample.scr_empty_refs = JArray []
  /\ accepts (fun _ => false) scrNoIdSchema Sample.scr_empty_refs = true
  /\ accepts (fun _ => false) scrSchema Sample.scr_empty_refs = true.
Proof. repeat split; reflexivity. Qed.

Lemma C2_refs_elements_checked_witness :
  exists items,
    content_refs Sample.scr_one_ref = JArray items
    /\ forallb (well_formed_reference Sample.isUrl) items = true.
Proof.
  apply (C2_refs_elements_checked Sample.isUrl scrSchema Sample.scr_one_ref).
  - right. reflexivity.
  - vm_compute. discriminate.
  - vm_compute. reflexivity.
Defined.

Lemma C3_putContent_checks_witness :
  fails_early
    (putContent Sample.fetch Sample.JSON_stringify Sample.isUrl "https://svc" "3d"
       Sample.scr_one_ref (Some "") (Some "token"))
    Sample.online (Error "Check parameters: , token")
  /\ fails_early
       (putContent Sample.fetch Sample.JSON_stringify Sample.isUrl "https://svc" "3d"
          Sample.scr_no_id (Some "a3683f12b334dea6") (Some "token"))
       Sample.online
       (ZodError [mkIssue (invalid_type PString PUndefined) [Key "id"]])
  /\ exists r,
       issued
         (putContent Sample.fetch Sample.JSON_stringify Sample.isUrl "https://svc" "3d"
            Sample.scr_one_ref (Some "a3683f12b334dea6") (Some "token"))
         Sample.online = [r]
       /\ req_method r = PUT_METHOD
       /\ req_url r = "https://svc/scrs/3d/a3683f12b334dea6"
       /\ req_body r = Some (Sample.JSON_stringify Sample.scr_one_ref).
Proof.
  assert (forall s, s <> "" -> ~ missing (Some s)) as present.
  { intros s Hs [E|E]; [discriminate | inversion E; contradiction]. }
  repeat apply conj.
  - apply (C3_putContent_checks Sample.fetch Sample.JSON_stringify Sample.isUrl
             "https://svc" "3d" Sample.scr_one_ref (Some "") (Some "token")
             Sample.online eq_refl).
    left. right. reflexivity.
  - eapply (C3_putContent_checks Sample.fetch Sample.JSON_stringify Sample.isUrl
              "https://svc" "3d" Sample.scr_no_id (Some "a3683f12b334dea6")
              (Some "token") Sample.online eq_refl).
    + apply present. discriminate.
    + apply present. discriminate.
    + vm_compute. reflexivity.
  - eapply (C3_putContent_checks Sample.fetch Sample.JSON_stringify Sample.isUrl
              "https://svc" "3d" Sample.scr_one_ref (Some "a3683f12b334dea6")
              (Some "token") Sample.online eq_refl).
    + apply present. discriminate.
    + apply present. discriminate.
    + vm_compute. reflexivity.
Defined.

Lemma C4_getContentWithId_length_witness :
  fails_early
    (getContentWithId Sample.fetch Sample.JSON_parse "https://svc" "3d"
       (Some "a3683f12b334dea"))
    Sample.online (Error "Check parameters: a3683f12b334dea")
  /\ exists r,
       issued
         (getContentWithId Sample.fetch Sample.JSON_parse "https://svc" "3d"
            (Some "a3683f12b334dea6"))
         Sample.online = [r]
       /\ req_method r = GET_METHOD
       /\ req_url r = "https://svc/scrs/3d/a3683f12b334dea6".
Proof.
  split.
  - apply (C4_getContentWithId_length Sample.fetch Sample.JSON_parse "https://svc"
             "3d" (Some "a3683f12b334dea") Sample.online eq_refl).
    right. exists "a3683f12b334dea". split; [reflexivity | simpl; lia].
  - apply (proj2 (C4_getContentWithId_length Sample.fetch Sample.JSON_parse
                    "https://svc" "3d" (Some "a3683f12b334dea6") Sample.online eq_refl)
                 "a3683f12b334dea6" eq_refl).
    simpl. lia.
Defined.

Lemma C5_getContentsAtLocation_parameters_witness :
  fails_early
    (getContentsAtLocation Sample.fetch Sample.JSON_parse "https://svc" (Some "")
       (Some "8928308280fffff") None)
    Sample.online (Error "Check parameters:  8928308280fffff")
  /\ issued
       (getContentsAtLocation Sample.fetch Sample.JSON_parse "https://svc" (Some "")
          (Some "8928308280fffff") None)
       Sample.online = [].
Proof.
  apply (C5_getContentsAtLocation_parameters Sample.fetch Sample.JSON_parse
           "https://svc" (Some "") (Some "8928308280fffff") None Sample.online eq_refl).
  left. right. reflexivity.
Defined.

Lemma C6_getContentsAtLocation_url_witness :
  exists r,
    issued
      (getContentsAtLocation Sample.fetch Sample.JSON_parse "https://svc" (Some "3d")
         (Some "8928308280fffff") (Some "cat"))
      Sample.online = [r]
    /\ req_url r = "https://svc/scrs/3d?h3Index=8928308280fffff&keywords=cat".
Proof.
  destruct (C6_getContentsAtLocation_url Sample.fetch Sample.JSON_parse "https://svc"
              "3d" "8928308280fffff" (Some "cat") Sample.online eq_refl)
    as (r & I & _ & U).
  - discriminate.
  - discriminate.
  - exists r. split; [exact I|]. apply (U "cat" eq_refl). discriminate.
Defined.

(** C7, as first stated, fails on the value of accept: the header ends
    with a semicolon. *)
Lemma C7_accept_ends_with_semicolon :
  map (fun r => header "accept" (req_headers r))
      (issued
         (getContentWithId Sample.fetch Sample.JSON_parse "https://svc" "3d"
            (Some "a3683f12b334dea6"))
         Sample.online)
  = [Some "application/vnd.oscp+json; version=1.0;"]
  /\ Some "application/vnd.oscp+json; version=1.0;"
     <> Some "application/vnd.oscp+json; version=1.0".
Proof. split; [reflexivity | discriminate]. Qed.

Lemma C7_request_construction_witness :
  header "authorization"
    (req_headers
       (mkRequest "https://svc/scrs/3d/a3683f12b334dea6" "put"
          [ ("accept", "application/vnd.oscp+json; version=1.0;");
            ("content-type", "application/json");
            ("authorization", "Bearer token") ]
          (Some (Sample.JSON_stringify Sample.scr_one_ref))))
  = Some "Bearer token".
Proof.
  eapply (C7_request_construction Sample.fetch Sample.JSON_parse
            Sample.JSON_stringify Sample.isUrl
            (Replace "https://svc" "3d" Sample.scr_one_ref (Some "a3683f12b334dea6")
               (Some "token"))
            Sample.online).
  - vm_compute. left. reflexivity.
  - reflexivity.
  - discriminate.
Defined.

Lemma C8_offline_fixtures_witness :
  exists first second,
    getContentsAtLocation Sample.fetch Sample.JSON_parse "https://svc" (Some "3d")
      (Some "8928308280fffff") None Sample.offline
    = (Fulfilled (JArray [first; second]), Sample.offline)
    /\ JArray [first; second] = localResults
    /\ ids (JArray [first; second])
       = [JString "a3683f12b334dea6"; JString "d44a6818c119b51e"].
Proof.
  apply (C8_offline_fixtures Sample.fetch Sample.JSON_parse Sample.JSON_stringify
           Sample.isUrl "https://svc" "3d" (Some "3d") (Some "8928308280fffff") None
           (Some "token") Sample.scr_one_ref Sample.offline eq_refl).
Defined.

(** C9, as first stated, fails on the file name: the failure of a file
    whose text is [{}] lists the two missing properties and does not
    contain the name of the file. *)
Lemma C9_failure_without_file_name :
  name Sample.empty_file = "upload.json"
  /\ postScrFile Sample.fetch Sample.JSON_parse Sample.JSON_stringify Sample.isUrl
       "https://svc" "3d" (Some Sample.empty_file) (Some "token") Sample.online
     = (Failed
          (ZodError [ mkIssue (invalid_type PString PUndefined) [Key "type"];
                      mkIssue (invalid_type PObject PUndefined) [Key "content"] ]),
        Sample.online)
  /\ includes "upload.json"
       (message_of
          (ZodError [ mkIssue (invalid_type PString PUndefined) [Key "type"];
                      mkIssue (invalid_type PObject PUndefined) [Key "content"] ]))
     = false.
Proof. repeat split; reflexivity. Qed.

Lemma C9_postScrFile_failures_witness :
  fails_early
    (postScrFile Sample.fetch Sample.JSON_parse Sample.JSON_stringify Sample.isUrl
       "https://svc" "3d" (Some Sample.broken_file) (Some "token"))
    Sample.online (SyntaxError "Unexpected end of JSON input")
  /\ fails_early
       (postScrFile Sample.fetch Sample.JSON_parse Sample.JSON_stringify Sample.isUrl
          "https://svc" "3d" (Some Sample.empty_file) (Some "token"))
       Sample.online
       (ZodError [ mkIssue (invalid_type PString PUndefined) [Key "type"];
                   mkIssue (invalid_type PObject PUndefined) [Key "content"] ]).
Proof.
  split.
  - apply (C9_postScrFile_failures Sample.fetch Sample.JSON_parse
             Sample.JSON_stringify Sample.isUrl "https://svc" "3d" "upload.json" "{"
             (Some "token") Sample.online).
    reflexivity.
  - apply (proj1 (proj2 (C9_postScrFile_failures Sample.fetch Sample.JSON_parse
             Sample.JSON_stringify Sample.isUrl "https://svc" "3d" "upload.json" "{}"
             (Some "token") Sample.online)) (JObject [])).
    + reflexivity.
    + reflexivity.
Defined.

(** ** How the operations settle *)

Section AccessRuns.

Variable fetch : Request -> Completion Response.
Variable JSON_parse : string -> string + JSValue.
Variable JSON_stringify : JSValue -> string.
Variable isUrl : string -> bool.

(** [request] followed by a step that leaves the world alone. *)
Lemma bind_request_run {B} (url method body : string) (token : option string)
    (k : Response -> Async B) (finish : Response -> Completion B) (w : World) :
  (forall response w', k response w' = (finish response, w')) ->
  exists r,
    built url method body token r
    /\ bind (request fetch url method body token) k w
       = (settled finish (fetch r), mkWorld (local w) (network w ++ [r])%list).
Proof.
  intro Hk. unfold request, bind, do_fetch, settled. cbv zeta.
  match goal with |- context [fetch ?x] => set (r := x) end.
  exists r. split.
  - subst r. constructor; cbn [req_url req_method req_headers req_body];
      try reflexivity; destruct (truthy token); reflexivity.
  - destruct (fetch r) as [resp|e]; [destruct (ok resp)|];
      cbn; rewrite ?Hk; reflexivity.
Qed.

Lemma parse_json_finish (response : Response) (w : World) :
  parse_json JSON_parse (text response) w = (read_json JSON_parse response, w).
Proof.
  unfold parse_json, read_json. destruct (JSON_parse (text response)); reflexivity.
Qed.

Lemma getContentsAtLocation_run url topic h3Index keywords w :
  local w = false -> ~ missing topic -> ~ missing h3Index ->
  exists r,
    built (url ++ "/" ++ scrsPath ++ "/" ++ show topic ++ "?h3Index=" ++ show h3Index
             ++ match keywords with
                | Some k => if String.eqb k "" then "" else "&keywords=" ++ k
                | None => ""
                end)
          GET_METHOD "" None r
    /\ getContentsAtLocation fetch JSON_parse url topic h3Index keywords w
       = (settled (read_json JSON_parse) (fetch r), mkWorld (local w) (network w ++ [r])%list).
Proof.
  intros L T H. destruct w as [l n]; simpl in L; subst l.
  destruct (bind_request_run
              (url ++ "/" ++ scrsPath ++ "/" ++ show topic ++ "?h3Index=" ++ show h3Index
                 ++ match keywords with
                    | Some k => if String.eqb k "" then "" else "&keywords=" ++ k
                    | None => ""
                    end)
              GET_METHOD "" None (fun response => parse_json JSON_parse (text response))
              (read_json JSON_parse) (mkWorld false n) parse_json_finish) as (r & B & E).
  exists r. split; [exact B|].
  unfold getContentsAtLocation, bind at 1, read_local.
  cbn [local]. rewrite (not_missing_eqb _ T), (not_missing_eqb _ H). cbn [orb].
  destruct keywords as [k|]; exact E.
Qed.

Lemma getContentWithId_run url topic id w :
  local w = false ->
  match id with None => true | Some i => (String.length i <? 16)%nat end = false ->
  exists r,
    built (url ++ "/" ++ scrsPath ++ "/" ++ topic ++ "/" ++ show id) GET_METHOD "" None r
    /\ getContentWithId fetch JSON_parse url topic id w
       = (settled (read_json JSON_parse) (fetch r), mkWorld (local w) (network w ++ [r])%list).
Proof.
  intros L S. destruct w as [l n]; simpl in L; subst l.
  destruct (bind_request_run
              (url ++ "/" ++ scrsPath ++ "/" ++ topic ++ "/" ++ show id)
              GET_METHOD "" None (fun response => parse_json JSON_parse (text response))
              (read_json JSON_parse) (mkWorld false n) parse_json_finish) as (r & B & E).
  exists r. split; [exact B|].
  unfold getContentWithId, bind at 1, read_local.
  cbn [local]. rewrite S. exact E.
Qed.

Lemma searchContentsForTenant_run url topic token w :
  exists r,
    built (url ++ "/tenant/" ++ scrsPath ++ "/" ++ topic) GET_METHOD "" token r
    /\ searchContentsForTenant fetch JSON_parse url topic token w
       = (settled (read_json JSON_parse) (fetch r), mkWorld (local w) (network w ++ [r])%list).
Proof.
  apply (bind_request_run _ _ _ _
           (fun response => parse_json JSON_parse (text response)) (read_json JSON_parse) w
           parse_json_finish).
Qed.

Lemma deleteWithId_run url topic id token w :
  exists r,
    built (url ++ "/" ++ scrsPath ++ "/" ++ topic ++ "/" ++ id) DELETE_METHOD "" token r
    /\ deleteWithId fetch url topic id token w
       = (settled read_text (fetch r), mkWorld (local w) (network w ++ [r])%list).
Proof.
  apply (bind_request_run _ _ _ _ (fun response => ret (text response)) read_text w).
  reflexivity.
Qed.

Lemma postContent_run url topic scr token data w :
  local w = false -> ~ missing token ->
  safeParse isUrl scrNoIdSchema [] scr = Success data ->
  exists r,
    built (url ++ "/" ++ scrsPath ++ "/" ++ topic) POST_METHOD (JSON_stringify scr) token r
    /\ postContent fetch JSON_stringify isUrl url topic scr token w
       = (settled read_text (fetch r), mkWorld (local w) (network w ++ [r])%list).
Proof.
  intros L M S. destruct w as [l n]; simpl in L; subst l.
  destruct (bind_request_run (url ++ "/" ++ scrsPath ++ "/" ++ topic) POST_METHOD
              (JSON_stringify scr) token (fun response => ret (text response))
              read_text (mkWorld false n) (fun _ _ => eq_refl)) as (r & B & E).
  exists r. split; [exact B|].
  unfold postContent, bind at 1, read_local.
  cbn [local]. rewrite (not_missing_length _ M).
  unfold bind at 1. rewrite (zod_parse_success _ _ _ _ _ S). exact E.
Qed.

Lemma putContent_run url topic scr id token data w :
  local w = false -> ~ missing id -> ~ missing token ->
  safeParse isUrl scrSchema [] scr = Success data ->
  exists r,
    built (url ++ "/" ++ scrsPath ++ "/" ++ topic ++ "/" ++ show id)
          PUT_METHOD (JSON_stringify scr) token r
    /\ putContent fetch JSON_stringify isUrl url topic scr id token w
       = (settled read_text (fetch r), mkWorld (local w) (network w ++ [r])%list).
Proof.
  intros L Hid M S. destruct w as [l n]; simpl in L; subst l.
  destruct (bind_request_run (url ++ "/" ++ scrsPath ++ "/" ++ topic ++ "/" ++ show id)
              PUT_METHOD (JSON_stringify scr) token (fun response => ret (text response))
              read_text (mkWorld false n) (fun _ _ => eq_refl)) as (r & B & E).
  exists r. split; [exact B|].
  unfold putContent, bind at 1, read_local.
  cbn [local]. rewrite (not_missing_length _ Hid), (not_missing_length _ M). cbn [orb].
  unfold bind at 1. rewrite (zod_parse_success _ _ _ _ _ S). exact E.
Qed.

(** *** Every call and the answer it gets *)

Lemma as_value_run (m : Async string) (w w' : World) (c : Completion string) :
  m w = (c, w') ->
  as_value m w
  = (match c with
     | Fulfilled s => Fulfilled (JString s)
     | Failed e => Failed e
     end, w').
Proof. unfold as_value, bind. intros ->. destruct c; reflexivity. Qed.

Lemma as_value_settled (answer : Completion Response) :
  match settled read_text answer with
  | Fulfilled s => Fulfilled (JString s)
  | Failed e => Failed e
  end
  = settled (fun response => Fulfilled (JString (text response))) answer.
Proof. destruct answer as [resp|e]; cbn; [destruct (ok resp)|]; reflexivity. Qed.

Lemma postContent_outcome url topic scr token w :
  issues_requests (postContent fetch JSON_stringify isUrl url topic scr token) w []
  \/ exists r,
      postContent fetch JSON_stringify isUrl url topic scr token w
      = (settled read_text (fetch r), mkWorld (local w) (network w ++ [r])%list).
Proof.
  destruct (local w) eqn:L.
  { left. eapply returns_offline_issues, postContent_offline, L. }
  destruct (match token with None => true | Some t => (String.length t =? 0)%nat end) eqn:M.
  { left. eapply fails_early_issues, postContent_invalid; [exact L|].
    now apply missing_length. }
  assert (~ missing token) as M'.
  { intro H. apply missing_length in H. congruence. }
  destruct (safeParse isUrl scrNoIdSchema [] scr) as [data|issues] eqn:S.
  - right. destruct (postContent_run url topic scr token data w L M' S) as (r & _ & E).
    rewrite L in E. eauto.
  - left. eapply fails_early_issues, postContent_rejected; eauto.
Qed.

Lemma postScrFile_outcome url topic file token w :
  issues_requests
    (postScrFile fetch JSON_parse JSON_stringify isUrl url topic file token) w []
  \/ exists r,
      postScrFile fetch JSON_parse JSON_stringify isUrl url topic file token w
      = (settled read_text (fetch r), mkWorld (local w) (network w ++ [r])%list).
Proof.
  unfold postScrFile.
  destruct (bind_pure_step (getFileContent file)
              (fun result =>
                 parsedResult <- parse_json JSON_parse result ;;
                 scrNoId <- zod_parse isUrl scrNoIdSchema parsedResult ;;
                 postContent fetch JSON_stringify isUrl url topic scrNoId token)
              w (getFileContent_world file w)) as [[e E]|[result E]].
  { left. eapply fails_early_issues, E. }
  unfold issues_requests. rewrite E.
  destruct (bind_pure_step (parse_json JSON_parse result)
              (fun parsedResult =>
                 scrNoId <- zod_parse isUrl scrNoIdSchema parsedResult ;;
                 postContent fetch JSON_stringify isUrl url topic scrNoId token)
              w (parse_json_world JSON_parse result w)) as [[e E1]|[parsed E1]].
  { left. rewrite E1. simpl. symmetry. apply app_nil_world. }
  rewrite E1.
  destruct (bind_pure_step (zod_parse isUrl scrNoIdSchema parsed)
              (fun scrNoId =>
                 postContent fetch JSON_stringify isUrl url topic scrNoId token)
              w (zod_parse_world isUrl scrNoIdSchema parsed w)) as [[e E2]|[scrNoId E2]].
  { left. rewrite E2. simpl. symmetry. apply app_nil_world. }
  rewrite E2. apply postContent_outcome.
Qed.

Lemma putContent_outcome url topic scr id token w :
  issues_requests (putContent fetch JSON_stringify isUrl url topic scr id token) w []
  \/ exists r,
      putContent fetch JSON_stringify isUrl url topic scr id token w
      = (settled read_text (fetch r), mkWorld (local w) (network w ++ [r])%list).
Proof.
  destruct (local w) eqn:L.
  { left. eapply returns_offline_issues, putContent_offline, L. }
  destruct (match id with None => true | Some t => (String.length t =? 0)%nat end) eqn:Mi.
  { left. eapply fails_early_issues, putContent_invalid; [exact L|].
    left. now apply missing_length. }
  destruct (match token with None => true | Some t => (String.length t =? 0)%nat end) eqn:M.
  { left. eapply fails_early_issues, putContent_invalid; [exact L|].
    right. now apply missing_length. }
  assert (~ missing id) as Mi'.
  { intro H. apply missing_length in H. congruence. }
  assert (~ missing token) as M'.
  { intro H. apply missing_length in H. congruence. }
  destruct (safeParse isUrl scrSchema [] scr) as [data|issues] eqn:S.
  - right.
    destruct (putContent_run url topic scr id token data w L Mi' M' S) as (r & _ & E).
    rewrite L in E. eauto.
  - left. eapply fails_early_issues, putContent_rejected; eauto.
Qed.

Lemma getContentsAtLocation_outcome url topic h3Index keywords w :
  issues_requests (getContentsAtLocation fetch JSON_parse url topic h3Index keywords) w []
  \/ exists r,
      getContentsAtLocation fetch JSON_parse url topic h3Index keywords w
      = (settled (read_json JSON_parse) (fetch r),
         mkWorld (local w) (network w ++ [r])%list).
Proof.
  destruct (local w) eqn:L.
  { left. eapply returns_offline_issues, getContentsAtLocation_offline, L. }
  destruct (match topic with None => true | Some t => String.eqb t "" end) eqn:T.
  { left. eapply fails_early_issues, getContentsAtLocation_invalid; [exact L|].
    left. now apply missing_eqb. }
  destruct (match h3Index with None => true | Some t => String.eqb t "" end) eqn:H.
  { left. eapply fails_early_issues, getContentsAtLocation_invalid; [exact L|].
    right. now apply missing_eqb. }
  right.
  destruct (getContentsAtLocation_run url topic h3Index keywords w L) as (r & _ & E).
  - intro M. apply missing_eqb in M. congruence.
  - intro M. apply missing_eqb in M. congruence.
  - rewrite L in E. eauto.
Qed.

Lemma getContentWithId_outcome url topic id w :
  issues_requests (getContentWithId fetch JSON_parse url topic id) w []
  \/ exists r,
      getContentWithId fetch JSON_parse url topic id w
      = (settled (read_json JSON_parse) (fetch r),
         mkWorld (local w) (network w ++ [r])%list).
Proof.
  destruct (local w) eqn:L.
  { left. eapply returns_offline_issues, getContentWithId_offline, L. }
  destruct (match id with None => true | Some i => (String.length i <? 16)%nat end) eqn:S.
  - left. eapply fails_early_issues, getContentWithId_invalid; eauto.
  - right. destruct (getContentWithId_run url topic id w L S) as (r & _ & E).
    rewrite L in E. eauto.
Qed.

(** A call hands nothing to [fetch], or it hands one request and settles
    on the answer to it. *)
Lemma perform_outcome (c : Call) (w : World) :
  issues_requests (perform fetch JSON_parse JSON_stringify isUrl c) w []
  \/ exists r,
      perform fetch JSON_parse JSON_stringify isUrl c w
      = (settled (fun response =>
                    if returns_text c then Fulfilled (JString (text response))
                    else read_json JSON_parse response)
                 (fetch r),
         mkWorld (local w) (network w ++ [r])%list).
Proof.
  destruct c; cbn [perform returns_text].
  - apply getContentsAtLocation_outcome.
  - unfold getContentAtLocation. apply getContentsAtLocation_outcome.
  - apply getContentWithId_outcome.
  - right. destruct (searchContentsForTenant_run url topic token w) as (r & _ & E).
    eauto.
  - destruct (postContent_outcome url topic scr token w) as [I|[r E]].
    + left. now apply as_value_issues.
    + right. exists r. rewrite (as_value_run _ _ _ _ E). now rewrite as_value_settled.
  - destruct (postScrFile_outcome url topic file token w) as [I|[r E]].
    + left. now apply as_value_issues.
    + right. exists r. rewrite (as_value_run _ _ _ _ E). now rewrite as_value_settled.
  - destruct (putContent_outcome url topic scr id token w) as [I|[r E]].
    + left. now apply as_value_issues.
    + right. exists r. rewrite (as_value_run _ _ _ _ E). now rewrite as_value_settled.
  - right. destruct (deleteWithId_run url topic id token w) as (r & _ & E).
    exists r. rewrite (as_value_run _ _ _ _ E). now rewrite as_value_settled.
Qed.

(** X1. With [local] disabled, Create tests the token before the record:
    a missing token fails with the parameter error whatever the record; a
    record that [scrNoIdSchema] refuses fails with the issues; in both cases
    nothing is handed to [fetch]. A record that passes is sent by one POST
    to [url/scrs/topic], with the token as bearer and the record itself,
    not the parsed copy, as body. *)
Theorem postContent_checks (url topic : string) (scr : JSValue)
    (token : option string) (w : World) :
  local w = false ->
  (missing token ->
   fails_early (postContent fetch JSON_stringify isUrl url topic scr token) w
               (Error ("Check parameter: " ++ show token)))
  /\ (~ missing token ->
      (forall issues,
          safeParse isUrl scrNoIdSchema [] scr = Failure issues ->
          fails_early (postContent fetch JSON_stringify isUrl url topic scr token) w
                      (ZodError issues))
      /\ (forall data,
          safeParse isUrl scrNoIdSchema [] scr = Success data ->
          exists r,
            issued (postContent fetch JSON_stringify isUrl url topic scr token) w = [r]
            /\ req_method r = POST_METHOD
            /\ req_url r = url ++ "/scrs/" ++ topic
            /\ header "authorization" (req_headers r) = Some ("Bearer " ++ show token)
            /\ req_body r = Some (JSON_stringify scr))).
Proof.
  intro L. split; [|intros Htoken; split].
  - intro M. now apply postContent_invalid.
  - intros issues F. now apply postContent_rejected.
  - intros data S.
    destruct (postContent_online fetch JSON_stringify isUrl url topic scr token
                data w L Htoken S) as (r & B & I).
    exists r. destruct B as [U Me _ _ Auth Body].
    rewrite (not_missing_truthy _ Htoken) in Auth.
    repeat split; auto using issues_issued.
Qed.

(** X2. Whatever the call and the state, an operation hands at most one
    request to [fetch], keeps the requests made before it, and leaves the
    flag [local] as it found it. *)
Theorem at_most_one_request (c : Call) (w : World) :
  exists rs,
    snd (perform fetch JSON_parse JSON_stringify isUrl c w)
    = mkWorld (local w) (network w ++ rs)%list
    /\ List.length rs <= 1.
Proof.
  destruct (perform_requests fetch JSON_parse JSON_stringify isUrl c w)
    as [I|(r & u & body & B & I)].
  - exists []. split; [exact I | simpl; lia].
  - exists [r]. split; [exact I | simpl; lia].
Qed.

(** X3. How a call that reached the network settles. A failure of [fetch]
    is passed on as it is. A response that is not [ok] becomes an [Error]
    whose message is the text of the response, a comma, and its status
    text. An [ok] response gives its text for Create, Replace and
    Delete-by-id, and for the reads the value of its JSON, or the
    [SyntaxError] of the parser when the text is not JSON. *)
Theorem response_handling (c : Call) (w : World) (r : Request) :
  issued (perform fetch JSON_parse JSON_stringify isUrl c) w = [r] ->
  (forall e,
      fetch r = Failed e ->
      fst (perform fetch JSON_parse JSON_stringify isUrl c w) = Failed e)
  /\ (forall response,
      fetch r = Fulfilled response -> ok response = false ->
      fst (perform fetch JSON_parse JSON_stringify isUrl c w)
      = Failed (Error (text response ++ ", " ++ statusText response)))
  /\ (forall response,
      fetch r = Fulfilled response -> ok response = true ->
      returns_text c = true ->
      fst (perform fetch JSON_parse JSON_stringify isUrl c w)
      = Fulfilled (JString (text response)))
  /\ (forall response v,
      fetch r = Fulfilled response -> ok response = true ->
      returns_text c = false -> JSON_parse (text response) = inr v ->
      fst (perform fetch JSON_parse JSON_stringify isUrl c w) = Fulfilled v)
  /\ (forall response message,
      fetch r = Fulfilled response -> ok response = true ->
      returns_text c = false -> JSON_parse (text response) = inl message ->
      fst (perform fetch JSON_parse JSON_stringify isUrl c w)
      = Failed (SyntaxError message)).
Proof.
  intro Hr.
  destruct (perform_outcome c w) as [I|[r' E]].
  { apply issues_issued in I. rewrite I in Hr. discriminate. }
  assert (r' = r) as ->.
  { unfold issued in Hr. rewrite E in Hr. cbn [snd network] in Hr.
    rewrite skipn_app, Nat.sub_diag, skipn_all in Hr. now inversion Hr. }
  rewrite E. cbn [fst]. unfold settled, read_json. repeat split.
  - now intros e ->.
  - now intros response -> ->.
  - now intros response -> -> ->.
  - now intros response v -> -> -> ->.
  - now intros response message -> -> -> ->.
Qed.

(** X4. Delete-by-id and List-for-tenant test none of their arguments and
    not the flag: in every state, for every id and token, each hands one
    request without a body to [fetch], to [url/scrs/topic/id] and to
    [url/tenant/scrs/topic]; with a missing token the request goes out
    without the header authorization. *)
Theorem delete_and_tenant_list_unchecked (url topic id : string)
    (token : option string) (w : World) :
  (exists r,
      issued (deleteWithId fetch url topic id token) w = [r]
      /\ req_method r = DELETE_METHOD
      /\ req_url r = url ++ "/scrs/" ++ topic ++ "/" ++ id
      /\ req_body r = None
      /\ (missing token -> header "authorization" (req_headers r) = None))
  /\ (exists r,
      issued (searchContentsForTenant fetch JSON_parse url topic token) w = [r]
      /\ req_method r = GET_METHOD
      /\ req_url r = url ++ "/tenant/scrs/" ++ topic
      /\ req_body r = None
      /\ (missing token -> header "authorization" (req_headers r) = None)).
Proof.
  split.
  - destruct (deleteWithId_sends fetch url topic id token w) as (r & B & I).
    exists r. destruct B as [U Me _ _ Auth Body].
    repeat split; auto using issues_issued.
    intros [E|E]; rewrite Auth, E; reflexivity.
  - destruct (searchContentsForTenant_sends fetch JSON_parse url topic token w)
      as (r & B & I).
    exists r. destruct B as [U Me _ _ Auth Body].
    repeat split; auto using issues_issued.
    intros [E|E]; rewrite Auth, E; reflexivity.
Qed.

End AccessRuns.

(** ** More about the schemas *)

Section SchemaChecks.

Variable isUrl : string -> bool.

Lemma safeParse_object (shape : list (string * ZodType)) (at_ : list PathSegment)
    (props : list (string * JSValue)) :
  safeParse isUrl (ZObject shape) at_ (JObject props)
  = match parse_shape isUrl at_ props shape with
    | inr out => Success (JObject out)
    | inl issues => Failure issues
    end.
Proof. reflexivity. Qed.

Lemma safeParse_array (item : ZodType) (at_ : list PathSegment)
    (items : list JSValue) :
  safeParse isUrl (ZArray item) at_ (JArray items)
  = match parse_items isUrl item at_ 0 items with
    | inr out => Success (JArray out)
    | inl issues => Failure issues
    end.
Proof. reflexivity. Qed.

Lemma parse_shape_cons (at_ : list PathSegment) (props : list (string * JSValue))
    (key : string) (t : ZodType) (sh : list (string * ZodType)) :
  parse_shape isUrl at_ props ((key, t) :: sh)
  = add_prop key (has key props)
             (safeParse isUrl t (at_ ++ [Key key])%list (get key props))
             (parse_shape isUrl at_ props sh).
Proof. reflexivity. Qed.

Lemma add_prop_inr (key : string) (present : bool) (r : SafeParse)
    (rest : list ZodIssue + list (string * JSValue)) (out : list (string * JSValue)) :
  add_prop key present r rest = inr out ->
  exists v out', r = Success v /\ rest = inr out'.
Proof.
  destruct r as [v|issues], rest as [issues'|out']; cbn; intro H;
    try discriminate; eauto.
Qed.

(** An object passes exactly when every property of the shape passes. *)
Lemma parse_shape_passes (at_ : list PathSegment) (props : list (string * JSValue))
    (shape : list (string * ZodType)) :
  (exists out, parse_shape isUrl at_ props shape = inr out)
  <-> Forall (fun p => exists d,
                safeParse isUrl (snd p) (at_ ++ [Key (fst p)])%list
                          (get (fst p) props) = Success d) shape.
Proof.
  induction shape as [|[key t] sh IH].
  - split; [constructor | intros _; now exists []].
  - rewrite parse_shape_cons. split.
    + intros [out H]. apply add_prop_inr in H as (v & out' & Hv & Hout).
      constructor; [cbn; eauto | apply IH; eauto].
    + intros H. inversion H as [|? ? [d Hd] Hrest]; subst. cbn in Hd.
      apply IH in Hrest as [out' Hout']. rewrite Hd, Hout'. cbn.
      destruct d; [destruct (has key props)| | | | | |]; eauto.
Qed.

Lemma accepts_object (shape : list (string * ZodType))
    (props : list (string * JSValue)) :
  accepts isUrl (ZObject shape) (JObject props) = true
  <-> Forall (fun p => exists d,
                safeParse isUrl (snd p) [Key (fst p)] (get (fst p) props) = Success d)
             shape.
Proof.
  unfold accepts. rewrite safeParse_object.
  rewrite <- (parse_shape_passes [] props shape).
  destruct (parse_shape isUrl [] props shape) as [issues|out]; split;
    try discriminate; eauto.
  intros [out H]. discriminate.
Qed.

Lemma accepts_not_object (shape : list (string * ZodType)) (v : JSValue) :
  (forall props, v <> JObject props) -> accepts isUrl (ZObject shape) v = false.
Proof.
  intro H. destruct v; try reflexivity. exfalso. eapply H. reflexivity.
Qed.

Lemma safeParse_string_iff (at_ : list PathSegment) (v : JSValue) :
  (exists d, safeParse isUrl ZString at_ v = Success d) <-> is_string v = true.
Proof.
  destruct v; cbn; split; intro H; try discriminate; eauto;
    destruct H; discriminate.
Qed.

(** X5. [scrSchema] is [scrNoIdSchema] with one more demand: a record
    passes [scrSchema] exactly when it passes [scrNoIdSchema] and its
    top-level [id] is a string. *)
Theorem scrSchema_adds_id (candidate : JSValue) :
  accepts isUrl scrSchema candidate = true
  <-> accepts isUrl scrNoIdSchema candidate = true
      /\ is_string (top_level_id candidate) = true.
Proof.
  rewrite scrSchema_shape. unfold scrNoIdSchema.
  destruct candidate as [ | |b|n|s|items|props];
    try (split; [discriminate | intros [H _]; discriminate]).
  rewrite !accepts_object.
  change [("type", ZString); ("content", contentSchema);
          ("tenant", ZOptional ZString); ("timestamp", ZOptional ZNumber);
          ("id", ZString)]
    with ([("type", ZString); ("content", contentSchema);
           ("tenant", ZOptional ZString); ("timestamp", ZOptional ZNumber)]
          ++ [("id", ZString)])%list.
  rewrite Forall_app. cbn [top_level_id].
  rewrite <- (safeParse_string_iff [Key "id"] (get "id" props)).
  split; intros [H1 H2]; split; auto.
  now inversion H2.
Qed.

(** *** The properties a record must have *)

Lemma field_undefined (path : list string) : field path JUndefined = JUndefined.
Proof. destruct path; reflexivity. Qed.

Lemma field_step (key : string) (path : list string) (v : JSValue) :
  field (key :: path) v = field path (field [key] v).
Proof. destruct v; cbn; try reflexivity; now rewrite field_undefined. Qed.

Lemma object_sub (shape : list (string * ZodType)) (at_ : list PathSegment)
    (v data : JSValue) (key : string) (t : ZodType) :
  safeParse isUrl (ZObject shape) at_ v = Success data ->
  In (key, t) shape ->
  exists d, safeParse isUrl t (at_ ++ [Key key])%list (field [key] v) = Success d.
Proof.
  intros H Hin. destruct (safeParse_object_input _ _ _ _ _ H) as [props ->].
  exact (safeParse_object_field _ _ _ _ _ _ _ H Hin).
Qed.

Lemma object_string (shape : list (string * ZodType)) (at_ : list PathSegment)
    (v data : JSValue) (key : string) :
  safeParse isUrl (ZObject shape) at_ v = Success data ->
  In (key, ZString) shape -> is_string (field [key] v) = true.
Proof.
  intros H Hin. destruct (object_sub _ _ _ _ _ _ H Hin) as [d Hd].
  apply safeParse_string_iff with (at_ := (at_ ++ [Key key])%list). eauto.
Qed.

Lemma object_number (shape : list (string * ZodType)) (at_ : list PathSegment)
    (v data : JSValue) (key : string) :
  safeParse isUrl (ZObject shape) at_ v = Success data ->
  In (key, ZNumber) shape -> is_number (field [key] v) = true.
Proof.
  intros H Hin. destruct (object_sub _ _ _ _ _ _ H Hin) as [d Hd].
  destruct (field [key] v) as [ | |b|[|m e]|s|items|props]; cbn in Hd;
    try discriminate; reflexivity.
Qed.

Lemma geopose_numbers (at_ : list PathSegment) (v data : JSValue) :
  safeParse isUrl geoPoseSchema at_ v = Success data ->
  Forall (fun path => is_number (field path v) = true)
    [ ["position"; "lon"]; ["position"; "lat"]; ["position"; "h"];
      ["quaternion"; "x"]; ["quaternion"; "y"]; ["quaternion"; "z"];
      ["quaternion"; "w"] ].
Proof.
  intro H.
  destruct (object_sub _ _ _ _ "position" positionSchema H) as [d1 H1]; [cbn; auto|].
  destruct (object_sub _ _ _ _ "quaternion" quaternionSchema H) as [d2 H2]; [cbn; auto|].
  repeat constructor; rewrite field_step;
    first [ eapply object_number; [exact H1 | cbn; auto 10]
          | eapply object_number; [exact H2 | cbn; auto 10] ].
Qed.

(** X6. A record that passes [scrNoIdSchema] or [scrSchema] has a string
    [type], a content with string [id], [type] and [title], and in the
    content a geopose whose position has numbers [lon], [lat], [h] and whose
    quaternion has numbers [x], [y], [z], [w], none of them [NaN]. A record
    without [content.geopose] is refused. *)
Theorem required_properties (schema : ZodType) (candidate : JSValue) :
  schema = scrNoIdSchema \/ schema = scrSchema ->
  accepts isUrl schema candidate = true ->
  Forall (fun path => is_string (field path candidate) = true)
    [ ["type"]; ["content"; "id"]; ["content"; "type"]; ["content"; "title"] ]
  /\ Forall (fun path => is_number (field path candidate) = true)
       [ ["content"; "geopose"; "position"; "lon"];
         ["content"; "geopose"; "position"; "lat"];
         ["content"; "geopose"; "position"; "h"];
         ["content"; "geopose"; "quaternion"; "x"];
         ["content"; "geopose"; "quaternion"; "y"];
         ["content"; "geopose"; "quaternion"; "z"];
         ["content"; "geopose"; "quaternion"; "w"] ]
  /\ field ["content"; "geopose"] candidate <> JUndefined.
Proof.
  intros Hschema Hacc.
  assert (accepts isUrl scrNoIdSchema candidate = true) as Hno.
  { destruct Hschema as [-> | ->]; [exact Hacc | now apply scrSchema_adds_id in Hacc]. }
  clear Hacc Hschema. unfold accepts in Hno.
  destruct (safeParse isUrl scrNoIdSchema [] candidate) as [data|] eqn:H;
    [clear Hno | discriminate].
  unfold scrNoIdSchema in H.
  destruct (object_sub _ _ _ _ "content" contentSchema H) as [dc Hc]; [cbn; auto|].
  unfold contentSchema in Hc.
  destruct (object_sub _ _ _ _ "geopose" geoPoseSchema Hc) as [dg Hg]; [cbn; auto 10|].
  pose proof (geopose_numbers _ _ _ Hg) as Hn.
  split; [|split].
  - repeat constructor.
    + eapply object_string; [exact H | cbn; auto].
    + rewrite field_step. eapply object_string; [exact Hc | cbn; auto].
    + rewrite field_step. eapply object_string; [exact Hc | cbn; auto].
    + rewrite field_step. eapply object_string; [exact Hc | cbn; auto].
  - rewrite Forall_forall in Hn.
    repeat constructor; rewrite field_step, field_step; apply Hn; cbn; auto 10.
  - rewrite field_step. intro U.
    destruct (safeParse_object_input _ _ _ _ _ Hg) as [props E].
    rewrite U in E. discriminate.
Qed.

(** *** The optional properties *)

Lemma optional_field (shape : list (string * ZodType)) (at_ : list PathSegment)
    (v data : JSValue) (key : string) (t : ZodType) (p : JSValue -> bool) :
  (forall at' x d, safeParse isUrl t at' x = Success d -> p x = true) ->
  safeParse isUrl (ZObject shape) at_ v = Success data ->
  In (key, ZOptional t) shape -> absent_or p (field [key] v) = true.
Proof.
  intros Hp H Hin. destruct (object_sub _ _ _ _ _ _ H Hin) as [d Hd].
  destruct (field [key] v) eqn:E; [reflexivity| | | | | |];
    cbn [absent_or]; eapply Hp; cbn [safeParse] in Hd; exact Hd.
Qed.

Lemma string_passes (at_ : list PathSegment) (v d : JSValue) :
  safeParse isUrl ZString at_ v = Success d -> is_string v = true.
Proof. intro H. eapply safeParse_string_iff; eauto. Qed.

Lemma number_passes (at_ : list PathSegment) (v d : JSValue) :
  safeParse isUrl ZNumber at_ v = Success d -> is_number v = true.
Proof.
  destruct v as [ | |b|[|m e]|s|items|props]; cbn; intro H;
    try discriminate; reflexivity.
Qed.

Lemma array_passes (item : ZodType) (p : JSValue -> bool) (at_ : list PathSegment)
    (v d : JSValue) :
  (forall at' x d', safeParse isUrl item at' x = Success d' -> p x = true) ->
  safeParse isUrl (ZArray item) at_ v = Success d -> is_array_of p v = true.
Proof.
  intros Hp H. destruct (safeParse_array_input _ _ _ _ _ H) as [items ->].
  apply safeParse_array_items in H. cbn. apply forallb_forall. intros x Hx.
  rewrite Forall_forall in H. destruct (H x Hx) as (i & dx & Hdx). eauto.
Qed.

Lemma definition_passes (at_ : list PathSegment) (v d : JSValue) :
  safeParse isUrl defSchema at_ v = Success d -> is_definition v = true.
Proof.
  intro H. unfold defSchema in H.
  pose proof (object_string _ _ _ _ "type" H) as T.
  pose proof (object_string _ _ _ _ "value" H) as V.
  destruct (safeParse_object_input _ _ _ _ _ H) as [props ->].
  cbn in T, V. unfold is_definition. rewrite T, V by (cbn; auto). reflexivity.
Qed.

(** X7. In a record that passes [scrNoIdSchema] or [scrSchema], each
    optional property is either absent or of its declared type: [tenant],
    [description], [placekey] and [bbox] strings, [timestamp] and [size]
    numbers, [keywords] an array of strings, [definitions] an array of
    Definitions. A [null] in their place is refused. *)
Theorem optional_properties (schema : ZodType) (candidate : JSValue) :
  schema = scrNoIdSchema \/ schema = scrSchema ->
  accepts isUrl schema candidate = true ->
  Forall (fun path => absent_or is_string (field path candidate) = true)
    [ ["tenant"]; ["content"; "description"]; ["content"; "placekey"];
      ["content"; "bbox"] ]
  /\ Forall (fun path => absent_or is_number (field path candidate) = true)
       [ ["timestamp"]; ["content"; "size"] ]
  /\ absent_or (is_array_of is_string) (field ["content"; "keywords"] candidate) = true
  /\ absent_or (is_array_of is_definition)
       (field ["content"; "definitions"] candidate) = true.
Proof.
  intros Hschema Hacc.
  assert (accepts isUrl scrNoIdSchema candidate = true) as Hno.
  { destruct Hschema as [-> | ->]; [exact Hacc | now apply scrSchema_adds_id in Hacc]. }
  clear Hacc Hschema. unfold accepts in Hno.
  destruct (safeParse isUrl scrNoIdSchema [] candidate) as [data|] eqn:H;
    [clear Hno | discriminate].
  unfold scrNoIdSchema in H.
  destruct (object_sub _ _ _ _ "content" contentSchema H) as [dc Hc]; [cbn; auto|].
  unfold contentSchema in Hc.
  repeat split.
  - repeat constructor; rewrite ?field_step with (path := [_]).
    + eapply optional_field; [apply string_passes | exact H | cbn; auto].
    + eapply optional_field; [apply string_passes | exact Hc | cbn; auto 20].
    + eapply optional_field; [apply string_passes | exact Hc | cbn; auto 20].
    + eapply optional_field; [apply string_passes | exact Hc | cbn; auto 20].
  - repeat constructor; rewrite ?field_step with (path := [_]).
    + eapply optional_field; [apply number_passes | exact H | cbn; auto].
    + eapply optional_field; [apply number_passes | exact Hc | cbn; auto 20].
  - rewrite field_step.
    eapply optional_field; [|exact Hc | cbn; auto 20].
    intros at' x d. apply array_passes, string_passes.
  - rewrite field_step.
    eapply optional_field; [|exact Hc | cbn; auto 20].
    intros at' x d. apply array_passes, definition_passes.
Qed.

(** *** Properties the schema does not name *)

Lemma get_skip (key k : string) (v : JSValue) (l1 l2 : list (string * JSValue)) :
  key <> k -> get key (l1 ++ (k, v) :: l2)%list = get key (l1 ++ l2)%list.
Proof.
  intro Hk. induction l1 as [|[k1 v1] l1 IH]; cbn.
  - destruct (String.eqb_spec k key); [congruence | reflexivity].
  - now rewrite IH.
Qed.

Lemma has_skip (key k : string) (v : JSValue) (l1 l2 : list (string * JSValue)) :
  key <> k -> has key (l1 ++ (k, v) :: l2)%list = has key (l1 ++ l2)%list.
Proof.
  intro Hk. induction l1 as [|[k1 v1] l1 IH]; cbn.
  - destruct (String.eqb_spec k key); [congruence | reflexivity].
  - now rewrite IH.
Qed.

Lemma parse_shape_skip (at_ : list PathSegment) (k : string) (v : JSValue)
    (l1 l2 : list (string * JSValue)) (shape : list (string * ZodType)) :
  ~ In k (map fst shape) ->
  parse_shape isUrl at_ (l1 ++ (k, v) :: l2)%list shape
  = parse_shape isUrl at_ (l1 ++ l2)%list shape.
Proof.
  induction shape as [|[key t] sh IH]; intro Hk; [reflexivity|].
  rewrite !parse_shape_cons. cbn in Hk.
  rewrite get_skip, has_skip, IH by (intro; apply Hk; auto).
  reflexivity.
Qed.

(** X8. A property that the schema does not name changes nothing: the
    check of a record, or of a content, with such a property, wherever it
    stands, gives the result of the check without it: the same issues, or
    the same parsed copy. *)
Theorem unknown_properties_ignored (k : string) (v : JSValue)
    (at_ : list PathSegment) (l1 l2 : list (string * JSValue)) :
  (~ In k ["type"; "content"; "tenant"; "timestamp"] ->
   safeParse isUrl scrNoIdSchema at_ (JObject (l1 ++ (k, v) :: l2)%list)
   = safeParse isUrl scrNoIdSchema at_ (JObject (l1 ++ l2)%list))
  /\ (~ In k ["type"; "content"; "tenant"; "timestamp"; "id"] ->
      safeParse isUrl scrSchema at_ (JObject (l1 ++ (k, v) :: l2)%list)
      = safeParse isUrl scrSchema at_ (JObject (l1 ++ l2)%list))
  /\ (~ In k ["id"; "type"; "title"; "description"; "keywords"; "placekey"; "refs";
              "geopose"; "size"; "bbox"; "definitions"] ->
      safeParse isUrl contentSchema at_ (JObject (l1 ++ (k, v) :: l2)%list)
      = safeParse isUrl contentSchema at_ (JObject (l1 ++ l2)%list)).
Proof.
  repeat split; intro Hk.
  - unfold scrNoIdSchema. rewrite !safeParse_object.
    now rewrite parse_shape_skip by exact Hk.
  - rewrite scrSchema_shape, !safeParse_object.
    now rewrite parse_shape_skip by exact Hk.
  - unfold contentSchema. rewrite !safeParse_object.
    now rewrite parse_shape_skip by exact Hk.
Qed.

(** *** The parsed copy *)

(** Induction over schemas, through the shapes of objects. *)
Lemma ZodType_induction (P : ZodType -> Prop) :
  P ZString -> P ZStringUrl -> P ZNumber ->
  (forall item, P item -> P (ZArray item)) ->
  (forall shape, Forall (fun q => P (snd q)) shape -> P (ZObject shape)) ->
  (forall inner, P inner -> P (ZOptional inner)) ->
  forall t, P t.
Proof.
  intros HS HU HN HA HO HOpt. fix IH 1.
  intros [ | | |item|shape|inner];
    [exact HS | exact HU | exact HN | apply HA, IH | | apply HOpt, IH].
  apply HO. induction shape as [|[key t] sh IHsh]; constructor; [apply IH | exact IHsh].
Qed.

Lemma unique_keys_object (shape : list (string * ZodType)) :
  unique_keys (ZObject shape) = true ->
  distinct (map fst shape) = true
  /\ Forall (fun q => unique_keys (snd q) = true) shape.
Proof.
  cbn [unique_keys]. intro H. apply andb_true_iff in H as [D A].
  split; [exact D|]. clear D.
  induction shape as [|[key t] sh IH]; constructor;
    apply andb_true_iff in A as [A1 A2]; auto.
Qed.

Lemma has_get_absent (key : string) (l : list (string * JSValue)) :
  has key l = false -> get key l = JUndefined.
Proof.
  induction l as [|[k v] l IH]; cbn; [reflexivity|].
  destruct (String.eqb k key); cbn; [discriminate | exact IH].
Qed.

Lemma get_app_absent (key : string) (pre l : list (string * JSValue)) :
  has key pre = false -> get key (pre ++ l)%list = get key l.
Proof.
  induction pre as [|[k v] pre IH]; cbn; [reflexivity|].
  destruct (String.eqb k key); cbn; [discriminate | exact IH].
Qed.

Lemma has_app (key : string) (pre l : list (string * JSValue)) :
  has key (pre ++ l)%list = has key pre || has key l.
Proof.
  induction pre as [|[k v] pre IH]; cbn; [reflexivity|].
  now rewrite IH, orb_assoc.
Qed.

(** The parsed copy of an object has no other keys than the shape. *)
Lemma parse_shape_keys (at_ : list PathSegment) (props : list (string * JSValue))
    (shape : list (string * ZodType)) (out : list (string * JSValue)) (k : string) :
  parse_shape isUrl at_ props shape = inr out ->
  existsb (String.eqb k) (map fst shape) = false -> has k out = false.
Proof.
  revert out. induction shape as [|[key t] sh IH]; intros out H Hk.
  - cbn in H. inversion H. reflexivity.
  - rewrite parse_shape_cons in H. cbn in Hk. apply orb_false_iff in Hk as [Hk1 Hk2].
    pose proof H as H'. apply add_prop_inr in H' as (v & out' & Hv & Hout).
    rewrite Hv, Hout in H. specialize (IH out' Hout Hk2).
    rewrite String.eqb_sym in Hk1.
    destruct v; [destruct (has key props)| | | | | |]; cbn in H; inversion H; subst;
      cbn; rewrite ?Hk1; exact IH.
Qed.

(** What a schema with distinct keys lets through, it lets through again,
    unchanged; and the copy is [undefined] only if the input was. *)
Lemma safeParse_stable_general (t : ZodType) :
  unique_keys t = true ->
  forall at_ v d,
    safeParse isUrl t at_ v = Success d ->
    safeParse isUrl t at_ d = Success d /\ (d = JUndefined -> v = JUndefined).
Proof.
  induction t as [ | | |item IH|shape IH|inner IH] using ZodType_induction;
    intros U at_ v d H.
  - destruct v; cbn in H; try discriminate. inversion H; subst.
    split; [reflexivity | discriminate].
  - destruct v; cbn in H; try discriminate.
    destruct (isUrl s) eqn:E; [|discriminate]. inversion H; subst.
    split; [cbn; now rewrite E | discriminate].
  - destruct v as [ | |b|[|m e]|s|items|props]; cbn in H; try discriminate.
    inversion H; subst. split; [reflexivity | discriminate].
  - destruct (safeParse_array_input _ _ _ _ _ H) as [items ->].
    rewrite safeParse_array in H.
    destruct (parse_items isUrl item at_ 0 items) as [|out] eqn:E; [discriminate|].
    inversion H; subst. split; [|discriminate].
    rewrite safeParse_array.
    enough (parse_items isUrl item at_ 0 out = inr out) as -> by reflexivity.
    clear H. revert out E. generalize 0.
    induction items as [|x xs IHxs]; intros n out E.
    + cbn in E. inversion E. reflexivity.
    + cbn in E.
      destruct (safeParse isUrl item (at_ ++ [Index n])%list x) as [x'|] eqn:Ex;
        destruct (parse_items isUrl item at_ (S n) xs) as [|out'] eqn:Exs;
        cbn in E; try discriminate.
      inversion E; subst. cbn.
      destruct (IH U _ _ _ Ex) as [-> _]. now rewrite (IHxs _ _ Exs).
  - destruct (safeParse_object_input _ _ _ _ _ H) as [props ->].
    rewrite safeParse_object in H.
    destruct (parse_shape isUrl at_ props shape) as [|out] eqn:E; [discriminate|].
    inversion H; subst. split; [|discriminate].
    rewrite safeParse_object.
    enough (parse_shape isUrl at_ ([] ++ out)%list shape = inr out) as Hout
        by (cbn in Hout; now rewrite Hout).
    apply unique_keys_object in U as [D Us].
    assert (forall q, In q shape -> has (fst q) [] = false) as Hpre by reflexivity.
    clear H. revert out E Hpre. generalize (@nil (string * JSValue)) as pre.
    induction shape as [|[key t] sh IHsh]; intros pre out E Hpre.
    + cbn in E. inversion E. reflexivity.
    + rewrite parse_shape_cons in E. rewrite parse_shape_cons.
      inversion IH as [|? ? IHt IHrest]; subst.
      inversion Us as [|? ? Ut Urest]; subst. cbn in IHt, Ut.
      cbn in D. apply andb_true_iff in D as [Dk Drest].
      apply negb_true_iff in Dk.
      pose proof E as E'. apply add_prop_inr in E' as (v' & out' & Hv & Hout').
      rewrite Hv, Hout' in E.
      destruct (IHt Ut _ _ _ Hv) as [Hagain Hundef].
      pose proof (parse_shape_keys _ _ _ _ key Hout' Dk) as Hnot.
      assert (has key pre = false) as Hkpre by (apply (Hpre (key, t)); cbn; auto).
      assert (forall q, In q sh -> String.eqb key (fst q) = false) as Hdiff.
      { intros q Hq. destruct (String.eqb key (fst q)) eqn:Eq; [|reflexivity].
        rewrite <- Dk. symmetry. apply existsb_exists. exists (fst q).
        split; [apply in_map, Hq | exact Eq]. }
      assert (out = (key, v') :: out' \/ (out = out' /\ v' = JUndefined)) as [->|[-> ->]].
      { destruct v'; [destruct (has key props)| | | | | |]; cbn in E; inversion E; auto. }
      * rewrite get_app_absent by exact Hkpre. cbn [get]. rewrite String.eqb_refl.
        rewrite Hagain.
        replace (pre ++ (key, v') :: out')%list
          with ((pre ++ [(key, v')]) ++ out')%list by now rewrite <- app_assoc.
        rewrite (IHsh IHrest Drest Urest (pre ++ [(key, v')])%list out' Hout').
        -- rewrite <- app_assoc. cbn [app]. rewrite has_app. cbn [has].
           rewrite String.eqb_refl, orb_true_r.
           cbn. destruct v'; reflexivity.
        -- intros q Hq. rewrite has_app. cbn.
           rewrite (Hpre q) by (cbn; auto). rewrite (Hdiff q Hq). reflexivity.
      * rewrite get_app_absent by exact Hkpre.
        rewrite (has_get_absent _ _ Hnot).
        rewrite (Hundef eq_refl) in Hv. rewrite Hv.
        rewrite (IHsh IHrest Drest Urest pre out' Hout')
          by (intros q Hq; apply Hpre; cbn; auto).
        rewrite has_app, Hkpre, Hnot. reflexivity.
  - destruct v as [ | |b|n|s|items|props];
      [cbn in H; inversion H; subst; split; reflexivity | ..];
      (rewrite safeParse_optional in H by discriminate;
       destruct (IH U _ _ _ H) as [Hagain Hundef]; split; [|exact Hundef];
       destruct d; [specialize (Hundef eq_refl); discriminate| | | | | |];
       rewrite safeParse_optional by discriminate; exact Hagain).
Qed.

(** X9. The parsed copy of a record is stable: what [scrNoIdSchema] or
    [scrSchema] returns for a record it lets through passes the same schema
    again and comes back unchanged. *)
Theorem parsed_copy_stable (schema : ZodType) (candidate data : JSValue) :
  schema = scrNoIdSchema \/ schema = scrSchema ->
  safeParse isUrl schema [] candidate = Success data ->
  safeParse isUrl schema [] data = Success data.
Proof.
  intros Hschema H.
  eapply safeParse_stable_general; [|exact H].
  destruct Hschema as [-> | ->]; reflexivity.
Qed.

End SchemaChecks.

(** ** Uploading a file *)

Lemma substring_prefix (n s : string) : substring 0 (String.length n) (n ++ s) = n.
Proof. induction n as [|c n IH]; cbn; [now destruct s | now rewrite IH]. Qed.

Lemma substring_inside (p n s : string) :
  substring (String.length p) (String.length n) (p ++ n ++ s) = n.
Proof. induction p as [|c p IH]; cbn; [apply substring_prefix | exact IH]. Qed.

(** A text includes what stands in the middle of it. *)
Lemma includes_inside (p n s : string) : includes n (p ++ n ++ s) = true.
Proof.
  unfold includes. destruct (index 0 n (p ++ n ++ s)) eqn:E; [reflexivity|].
  destruct n as [|c n].
  - destruct (p ++ "" ++ s); cbn in E; discriminate.
  - exfalso.
    apply (index_correct3 0 (String.length p) (String c n) (p ++ String c n ++ s) E);
      [discriminate | lia | apply substring_inside].
Qed.

Section Uploads.

Variable fetch : Request -> Completion Response.
Variable JSON_parse : string -> string + JSValue.
Variable JSON_stringify : JSValue -> string.
Variable isUrl : string -> bool.

(** X10. Create-from-file-content, for a file whose text parses to a
    record that [scrNoIdSchema] lets through: with [local] enabled it
    returns the string OK and hands nothing to [fetch]; with [local]
    disabled and a token it hands one POST to [url/scrs/topic] to [fetch],
    and the body is the serialised parsed copy of the record, without the
    properties the schema does not name. *)
Theorem postScrFile_sends_parsed_copy (url topic name text : string)
    (token : option string) (parsed data : JSValue) (w : World) :
  JSON_parse text = inr parsed ->
  safeParse isUrl scrNoIdSchema [] parsed = Success data ->
  (local w = true ->
   returns_offline
     (postScrFile fetch JSON_parse JSON_stringify isUrl url topic
        (Some (mkFile name (inl text))) token) w "OK")
  /\ (local w = false -> ~ missing token ->
      exists r,
        issued (postScrFile fetch JSON_parse JSON_stringify isUrl url topic
                  (Some (mkFile name (inl text))) token) w = [r]
        /\ req_method r = POST_METHOD
        /\ req_url r = url ++ "/scrs/" ++ topic
        /\ req_body r = Some (JSON_stringify data)).
Proof.
  intros Hparse Hvalid.
  assert (postScrFile fetch JSON_parse JSON_stringify isUrl url topic
            (Some (mkFile name (inl text))) token w
          = postContent fetch JSON_stringify isUrl url topic data token w) as E.
  { unfold postScrFile, bind, getFileContent, parse_json, zod_parse, ret.
    cbn [readAsText]. now rewrite Hparse, Hvalid. }
  split.
  - intro L. unfold returns_offline. rewrite E.
    now apply postContent_offline.
  - intros L M.
    pose proof (parsed_copy_stable isUrl scrNoIdSchema parsed data (or_introl eq_refl)
                  Hvalid) as Hstable.
    destruct (postContent_online fetch JSON_stringify isUrl url topic data token
                data w L M Hstable) as (r & B & I).
    exists r. destruct B as [U Me _ _ _ Body].
    unfold issued. rewrite E. fold (issued (postContent fetch JSON_stringify isUrl
                                              url topic data token) w).
    repeat split; auto using issues_issued.
Qed.

(** X11. Create-from-file-content without a file, or with a file that
    cannot be read, is rejected before anything is parsed or sent: with the
    reason [Undefined file provided], or with a reason that gives the name
    of the file and the error of the reader. *)
Theorem postScrFile_unreadable (url topic : string) (token : option string)
    (w : World) :
  fails_early
    (postScrFile fetch JSON_parse JSON_stringify isUrl url topic None token) w
    (Rejected "Undefined file provided")
  /\ (forall name error,
      fails_early
        (postScrFile fetch JSON_parse JSON_stringify isUrl url topic
           (Some (mkFile name (inr error))) token) w
        (Rejected ("Unable to get Content of " ++ name ++ ": " ++ error))
      /\ includes name ("Unable to get Content of " ++ name ++ ": " ++ error) = true).
Proof.
  split; [reflexivity|]. intros name error. split; [reflexivity|].
  apply includes_inside.
Qed.

End Uploads.

(** ** The further properties on the sample service *)

Lemma postContent_checks_witness :
  fails_early
    (postContent Sample.fetch Sample.JSON_stringify Sample.isUrl "https://svc" "3d"
       Sample.scr_no_id (Some ""))
    Sample.online (Error "Check parameter: ")
  /\ exists r,
       issued
         (postContent Sample.fetch Sample.JSON_stringify Sample.isUrl "https://svc" "3d"
            Sample.scr_no_id (Some "token"))
         Sample.online = [r]
       /\ req_method r = POST_METHOD
       /\ req_url r = "https://svc/scrs/3d"
       /\ header "authorization" (req_headers r) = Some "Bearer token"
       /\ req_body r = Some (Sample.JSON_stringify Sample.scr_no_id).
Proof.
  split.
  - apply (proj1 (postContent_checks Sample.fetch Sample.JSON_stringify Sample.isUrl
                    "https://svc" "3d" Sample.scr_no_id (Some "") Sample.online
                    eq_refl)).
    right. reflexivity.
  - eapply (proj2 (postContent_checks Sample.fetch Sample.JSON_stringify Sample.isUrl
                     "https://svc" "3d" Sample.scr_no_id (Some "token") Sample.online
                     eq_refl)).
    + intros [E|E]; discriminate.
    + vm_compute. reflexivity.
Defined.

Lemma response_handling_witness :
  fst (perform Upload.refusing Sample.JSON_parse Sample.JSON_stringify Sample.isUrl
         (DeleteById "https://svc" "3d" "a3683f12b334dea6" (Some "token"))
         Sample.online)
  = Failed (Error "no such record, Not Found")
  /\ fst (perform Upload.unreachable Sample.JSON_parse Sample.JSON_stringify
            Sample.isUrl (GetById "https://svc" "3d" (Some "a3683f12b334dea6"))
            Sample.online)
     = Failed (FetchError "Failed to fetch").
Proof.
  split.
  - apply (proj1 (proj2
             (response_handling Upload.refusing Sample.JSON_parse
                Sample.JSON_stringify Sample.isUrl
                (DeleteById "https://svc" "3d" "a3683f12b334dea6" (Some "token"))
                Sample.online
                (mkRequest "https://svc/scrs/3d/a3683f12b334dea6" "delete"
                   [ ("accept", "application/vnd.oscp+json; version=1.0;");
                     ("content-type", "application/json");
                     ("authorization", "Bearer token") ]
                   None)
                eq_refl))
             (mkResponse false "Not Found" "no such record"));
      reflexivity.
  - apply (proj1
             (response_handling Upload.unreachable Sample.JSON_parse
                Sample.JSON_stringify Sample.isUrl
                (GetById "https://svc" "3d" (Some "a3683f12b334dea6"))
                Sample.online
                (mkRequest "https://svc/scrs/3d/a3683f12b334dea6" "get"
                   [ ("accept", "application/vnd.oscp+json; version=1.0;");
                     ("content-type", "application/json") ]
                   None)
                eq_refl)).
    reflexivity.
Defined.

Lemma required_properties_witness :
  Forall (fun path => is_string (field path localResult) = true)
    [ ["type"]; ["content"; "id"]; ["content"; "type"]; ["content"; "title"] ].
Proof.
  apply (required_properties Sample.isUrl scrSchema localResult).
  - right. reflexivity.
  - vm_compute. reflexivity.
Defined.

Lemma optional_properties_witness :
  absent_or (is_array_of is_string) (field ["content"; "keywords"] localResult) = true.
Proof.
  apply (optional_properties Sample.isUrl scrSchema localResult).
  - right. reflexivity.
  - vm_compute. reflexivity.
Defined.

Lemma unknown_properties_ignored_witness :
  safeParse Sample.isUrl scrNoIdSchema [] Upload.record
  = safeParse Sample.isUrl scrNoIdSchema []
      (JObject
         [ ("type", JString "scr");
           ("content",
             JObject
               [ ("id", JString "x");
                 ("type", JString "3d");
                 ("title", JString "t");
                 ("url", JString "https://www.example.com/cat.glb");
                 ("geopose", Sample.geopose) ]) ]).
Proof.
  apply (proj1 (unknown_properties_ignored Sample.isUrl "note" (JString "draft") []
                  [ ("type", JString "scr");
                    ("content",
                      JObject
                        [ ("id", JString "x");
                          ("type", JString "3d");
                          ("title", JString "t");
                          ("url", JString "https://www.example.com/cat.glb");
                          ("geopose", Sample.geopose) ]) ]
                  [])).
  simpl. intuition discriminate.
Defined.

Lemma parsed_copy_stable_witness :
  safeParse Sample.isUrl scrNoIdSchema [] Upload.stripped = Success Upload.stripped.
Proof.
  apply (parsed_copy_stable Sample.isUrl scrNoIdSchema Upload.record Upload.stripped).
  - left. reflexivity.
  - vm_compute. reflexivity.
Defined.

Lemma postScrFile_sends_parsed_copy_witness :
  exists r,
    issued
      (postScrFile Sample.fetch Upload.JSON_parse Sample.JSON_stringify Sample.isUrl
         "https://svc" "3d" (Some Upload.record_file) (Some "token"))
      Sample.online = [r]
    /\ req_method r = POST_METHOD
    /\ req_url r = "https://svc/scrs/3d"
    /\ req_body r = Some (Sample.JSON_stringify Upload.stripped).
Proof.
  apply (proj2 (postScrFile_sends_parsed_copy Sample.fetch Upload.JSON_parse
                  Sample.JSON_stringify Sample.isUrl "https://svc" "3d" "upload.json"
                  Upload.record_text (Some "token") Upload.record Upload.stripped
                  Sample.online eq_refl eq_refl)).
  - reflexivity.
  - intros [E|E]; discriminate.
Defined.

(** ** The issues of a refusal *)

Section Issues.

Variable isUrl : string -> bool.

Lemma parse_shape_clean (at_ : list PathSegment) (props : list (string * JSValue))
    (shape : list (string * ZodType)) (out : list (string * JSValue)) :
  parse_shape isUrl at_ props shape = inr out ->
  flat_map (fun q => issues_of (safeParse isUrl (snd q) (at_ ++ [Key (fst q)])%list
                                          (get (fst q) props))) shape = [].
Proof.
  revert out. induction shape as [|[key t] sh IH]; intros out H; [reflexivity|].
  rewrite parse_shape_cons in H. apply add_prop_inr in H as (v & out' & Hv & Hout).
  cbn. rewrite Hv. cbn. eapply IH, Hout.
Qed.

Lemma parse_shape_issues (at_ : list PathSegment) (props : list (string * JSValue))
    (shape : list (string * ZodType)) (issues : list ZodIssue) :
  parse_shape isUrl at_ props shape = inl issues ->
  issues
  = flat_map (fun q => issues_of (safeParse isUrl (snd q) (at_ ++ [Key (fst q)])%list
                                            (get (fst q) props))) shape.
Proof.
  revert issues. induction shape as [|[key t] sh IH]; intros issues H;
    [discriminate|].
  rewrite parse_shape_cons in H. cbn [flat_map fst snd].
  destruct (safeParse isUrl t (at_ ++ [Key key])%list (get key props)) as [v|iss];
    destruct (parse_shape isUrl at_ props sh) as [issues'|out'] eqn:E; cbn in H.
  - inversion H; subst. cbn. now apply IH.
  - destruct v; [destruct (has key props)| | | | | |]; discriminate.
  - inversion H; subst. cbn. f_equal. now apply IH.
  - inversion H; subst. cbn. rewrite (parse_shape_clean _ _ _ _ E).
    now rewrite app_nil_r.
Qed.

(** A refusal always has an issue to show. *)
Lemma refusal_has_issues (t : ZodType) :
  forall at_ v issues, safeParse isUrl t at_ v = Failure issues -> issues <> [].
Proof.
  induction t as [ | | |item IH|shape IH|inner IH] using ZodType_induction;
    intros at_ v issues H.
  - destruct v; cbn in H; inversion H; discriminate.
  - destruct v; cbn in H; try (inversion H; discriminate).
    destruct (isUrl s); inversion H; discriminate.
  - destruct v as [ | |b|[|m e]|s|items|props]; cbn in H; inversion H; discriminate.
  - destruct v as [ | |b|n|s|items|props]; try (cbn in H; inversion H; discriminate).
    rewrite safeParse_array in H.
    destruct (parse_items isUrl item at_ 0 items) as [issues'|] eqn:E;
      inversion H; subst. clear H. revert issues E. generalize 0.
    induction items as [|x xs IHxs]; intros n issues E; [discriminate|].
    cbn in E.
    destruct (safeParse isUrl item (at_ ++ [Index n])%list x) as [x'|iss] eqn:Ex;
      destruct (parse_items isUrl item at_ (S n) xs) as [issues'|out'] eqn:Exs;
      cbn in E; inversion E; subst.
    + eapply IHxs, Exs.
    + apply IH in Ex. destruct iss; [contradiction | discriminate].
    + apply IH in Ex. exact Ex.
  - destruct v as [ | |b|n|s|items|props]; try (cbn in H; inversion H; discriminate).
    rewrite safeParse_object in H.
    destruct (parse_shape isUrl at_ props shape) as [issues'|] eqn:E;
      inversion H; subst. clear H. revert issues E.
    induction shape as [|[key t] sh IHsh]; intros issues E; [discriminate|].
    rewrite parse_shape_cons in E.
    inversion IH as [|? ? IHt IHrest]; subst. cbn in IHt.
    destruct (safeParse isUrl t (at_ ++ [Key key])%list (get key props)) as [v|iss] eqn:Et;
      destruct (parse_shape isUrl at_ props sh) as [issues'|out'] eqn:Es;
      cbn in E.
    + inversion E; subst. eapply IHsh; eauto.
    + destruct v; [destruct (has key props)| | | | | |]; discriminate.
    + inversion E; subst. apply IHt in Et. destruct iss; [contradiction | discriminate].
    + inversion E; subst. apply IHt in Et. exact Et.
  - destruct v as [ | |b|n|s|items|props]; [discriminate | ..];
      (rewrite safeParse_optional in H by discriminate; eapply IH, H).
Qed.

(** X12. A refusal reports every violation, not the first only: when a
    record is refused by an object schema (every schema of [index.ts] is
    one), the issues are those of all the properties of the shape, in the
    order of the shape, and there is at least one. *)
Theorem every_issue_reported (shape : list (string * ZodType))
    (at_ : list PathSegment) (props : list (string * JSValue))
    (issues : list ZodIssue) :
  safeParse isUrl (ZObject shape) at_ (JObject props) = Failure issues ->
  issues
  = flat_map (fun q => issues_of (safeParse isUrl (snd q) (at_ ++ [Key (fst q)])%list
                                            (get (fst q) props))) shape
  /\ issues <> [].
Proof.
  intro H. split; [|eapply refusal_has_issues, H].
  rewrite safeParse_object in H.
  destruct (parse_shape isUrl at_ props shape) as [issues'|] eqn:E;
    inversion H; subst.
  now apply parse_shape_issues.
Qed.

End Issues.

Lemma every_issue_reported_witness :
  [ mkIssue (invalid_type PString PUndefined) [Key "type"];
    mkIssue (invalid_type PObject PUndefined) [Key "content"] ]
  = flat_map (fun q => issues_of (safeParse Sample.isUrl (snd q) [Key (fst q)]
                                            (get (fst q) [])))
      [ ("type", ZString); ("content", contentSchema);
        ("tenant", ZOptional ZString); ("timestamp", ZOptional ZNumber) ].
Proof.
  apply (proj1 (every_issue_reported Sample.isUrl
                  [ ("type", ZString); ("content", contentSchema);
                    ("tenant", ZOptional ZString); ("timestamp", ZOptional ZNumber) ]
                  [] []
                  [ mkIssue (invalid_type PString PUndefined) [Key "type"];
                    mkIssue (invalid_type PObject PUndefined) [Key "content"] ]
                  eq_refl)).
Defined.
